(** * Logger-Module: the JSON record formatter and the severity filter

    A shallow embedding of [src/logger.py]: the set
    [LOG_RECORD_BUILTIN_ATTRS], the class [MyJSONFormatter] (its methods
    [format] and [_prepare_log_dict]), the class [NonErrorFilter]
    (its method [filter]) and the function [setup_logging].

    Python objects are modelled by the inductive type [pyval]; a
    dictionary is an association list in insertion order, as CPython
    iterates it; an exception that propagates out of a call is the
    [Raise] case of [result].  The calls that [logger.py] makes into
    Python's standard library and that are not unfolded here are the
    methods of the class [PyLib]; [json.dumps] is modelled in full on
    [pyval], because several properties are about the text it returns.
    What [setup_logging] asks of the file system and of
    [logging.config] are the calls of [Setup.call], answered by the
    methods of the class [Setup.System]; its paths are POSIX paths.

    A value of [pyval] is a finite tree, so a container that contains
    itself is not a value of the model, and no bound on the depth of a
    value stands for the interpreter's recursion limit; an object
    comes with the text of its [str()], so a [str()] that raises is
    not in the model; a string holds code points below 256; the
    attributes of a record are named by strings, as they are when the
    keys of [extra] are strings.  An integer of more than 4300 digits
    is not written: its conversion to text raises a [ValueError], as
    in CPython with its default limit. *)

From Stdlib Require Import ZArith Decimal DecimalFacts DecimalPos DecimalN DecimalZ
  DecimalString Ascii String.
From stdpp Require Import base tactics option list strings gmap.

(** ** Python values *)

(** A float is given by the digits of its [repr]: sign, integer part,
    digits after the point (none when [Nil]) and decimal exponent. *)
Inductive pyfloat :=
  | FNaN
  | FInf (neg : bool)
  | FDec (neg : bool) (ip : N) (fp : Decimal.uint) (ex : option Z).

(** [VTraceback frames text]: a traceback object, with the lines
    [traceback] prints for its frames and with its [str()].
    [VObj cls text]: any other object, with the name of its class as a
    traceback prints it and with its [str()]. *)
#[local] Unset Elimination Schemes.
Inductive pyval :=
  | VNone
  | VBool (b : bool)
  | VInt (z : Z)
  | VFloat (f : pyfloat)
  | VStr (s : string)
  | VList (items : list pyval)
  | VTuple (items : list pyval)
  | VDict (items : list (pyval * pyval))
  | VTraceback (frames : string) (text : string)
  | VObj (cls : string) (text : string).
#[local] Set Elimination Schemes.

(** [v is None] *)
Definition is_None (v : pyval) : bool :=
  match v with VNone => true | _ => false end.

(** ** Exceptions *)

Inductive exn :=
  | AttributeError (attr : string)
  | TypeError
  | ValueError
  | IndexError
  | OtherError (cls : string).

Inductive result (A : Type) :=
  | Ok (a : A)
  | Raise (e : exn).
Arguments Ok {A} a.
Arguments Raise {A} e.

#[export] Instance result_ret : MRet result := fun _ a => Ok a.
#[export] Instance result_bind : MBind result := fun _ _ f m =>
  match m with Ok a => f a | Raise e => Raise e end.
#[export] Instance result_fmap : FMap result := fun _ _ f m =>
  match m with Ok a => Ok (f a) | Raise e => Raise e end.

Definition raises {A} (m : result A) : Prop := exists e, m = Raise e.

(** ** Dictionaries

    A [dict] keeps its items in insertion order and holds a key once.
    Assigning to a key that is present replaces the value where the key
    stands; assigning to a new key appends the item. *)
Module Dict.
Abbreviation t V := (list (string * V)).

Section Ops.
Context {V : Type}.
Implicit Types d other : t V.

(** [d.get(k)] *)
Fixpoint get (k : string) d : option V :=
  match d with
  | [] => None
  | (k', v) :: d' => if decide (k = k') then Some v else get k d'
  end.

(** [d[k] = v] *)
Fixpoint set (k : string) (v : V) d : t V :=
  match d with
  | [] => [(k, v)]
  | (k', v') :: d' =>
      if decide (k = k') then (k, v) :: d' else (k', v') :: set k v d'
  end.

(** [d.pop(k, default)]: the value found, if any, and the dictionary left *)
Fixpoint pop (k : string) d : option V * t V :=
  match d with
  | [] => (None, [])
  | (k', v) :: d' =>
      if decide (k = k') then (Some v, d')
      else let '(o, r) := pop k d' in (o, (k', v) :: r)
  end.

(** [d.update(other)] *)
Definition update d other : t V :=
  foldl (fun acc kv => set kv.1 kv.2 acc) d other.

(** [list(d.keys())] *)
Definition keys d : list string := d.*1.
End Ops.
End Dict.

Abbreviation dict := (Dict.t pyval).

(** ** Log records *)

(** Set of built-in logging attributes *)
Definition LOG_RECORD_BUILTIN_ATTRS : gset string :=
  list_to_set
    [ "args"; "asctime"; "created"; "exc_info"; "exc_text"; "filename";
      "funcName"; "levelname"; "levelno"; "lineno"; "module"; "msecs";
      "message"; "msg"; "name"; "pathname"; "process"; "processName";
      "relativeCreated"; "stack_info"; "thread"; "threadName"; "taskName" ].

(** A [logging.LogRecord]: its instance dictionary, [record.__dict__].
    The names of the attributes are strings: the keys of [extra], which
    [Logger.makeRecord] copies into the dictionary as they are, are
    taken to be strings. *)
Record LogRecord := mkLogRecord { __dict__ : dict }.

(** The standard library as [logger.py] calls it. *)
Class PyLib := {
  (** [record.getMessage()]: [str(record.msg) % record.args] *)
  getMessage : LogRecord -> result string;
    (** what attribute lookup finds on the class [LogRecord] and its bases
      (methods and the like) when the instance dictionary has no entry *)
  class_attr : LogRecord -> string -> option pyval;
  (** [dt.datetime.fromtimestamp(x, tz=dt.timezone.utc).isoformat()] *)
  utc_isoformat : pyval -> result string;
  (** [logging.Formatter.formatException], inherited by [MyJSONFormatter] *)
  formatException : pyval -> result string;
}.

(** [logging.DEBUG] ... [logging.CRITICAL] *)
Definition DEBUG : Z := 10.
Definition INFO : Z := 20.
Definition WARNING : Z := 30.
Definition ERROR : Z := 40.
Definition CRITICAL : Z := 50.

Section Logger.
Context `{PyLib}.

(** [getattr(record, name)], also written [record.name] *)
Definition getattr (record : LogRecord) (name : string) : result pyval :=
  match Dict.get name (__dict__ record) with
  | Some v => Ok v
  | None =>
      match class_attr record name with
      | Some v => Ok v
      | None => Raise (AttributeError name)
      end
  end.

Definition hasattr (record : LogRecord) (name : string) : bool :=
  match getattr record name with Ok _ => true | Raise _ => false end.
End Logger.

(** ** The formatter *)

(** [MyJSONFormatter]: [fmt_keys] maps an output key to the name of the
    record attribute it is read from. *)
Record MyJSONFormatter := mkFormatter { fmt_keys : list (string * string) }.

(** [MyJSONFormatter.__init__] *)
Definition MyJSONFormatter__init__
    (fmt_keys : option (list (string * string))) : MyJSONFormatter :=
  mkFormatter (default [] fmt_keys).

Section Formatter.
Context `{PyLib}.

(** Lines 86-97: the derived fields. *)
Definition always_fields (record : LogRecord) : result dict :=
  message ← getMessage record;
  created ← getattr record "created";
  timestamp ← utc_isoformat created;
  let always_fields : dict :=
    [("message", VStr message); ("timestamp", VStr timestamp)] in
  exc_info ← getattr record "exc_info";
  always_fields ←
    (if is_None exc_info then Ok always_fields
     else text ← formatException exc_info;
          Ok (Dict.set "exc_info" (VStr text) always_fields));
  stack_info ← getattr record "stack_info";
  always_fields ←
    (if is_None stack_info then Ok always_fields
     else text ← formatException stack_info;
          Ok (Dict.set "stack_info" (VStr text) always_fields));
  Ok always_fields.

(** Lines 99-104: the dictionary comprehension over [fmt_keys.items()].
    It returns the dictionary built and what is left of [always_fields]. *)
Fixpoint comprehension (record : LogRecord) (items : list (string * string))
    (always_fields message : dict) : result (dict * dict) :=
  match items with
  | [] => Ok (message, always_fields)
  | (key, val) :: items =>
      let '(popped, always_fields) := Dict.pop val always_fields in
      let msg_val := default VNone popped in
      v ← (if is_None msg_val then getattr record val else Ok msg_val);
      comprehension record items always_fields (Dict.set key v message)
  end.

(** Lines 107-109: the loop over [record.__dict__.items()]. *)
Definition add_extras (items message : dict) : dict :=
  foldl (fun message kv =>
           if decide (kv.1 ∉ LOG_RECORD_BUILTIN_ATTRS)
           then Dict.set kv.1 kv.2 message else message)
        message items.

Definition _prepare_log_dict (self : MyJSONFormatter) (record : LogRecord)
    : result dict :=
  fields ← always_fields record;
  built ← comprehension record (fmt_keys self) fields [];
  let message := Dict.update built.1 built.2 in
  Ok (add_extras (__dict__ record) message).
End Formatter.

(** ** The filter *)

(** [x <= n] for an integer [n]: defined on numbers, a [TypeError]
    on the other values of [pyval]. *)
Definition float_le_int (f : pyfloat) (n : Z) : bool :=
  match f with
  | FNaN => false
  | FInf neg => neg
  | FDec neg ip fp ex =>
      let k := Z.of_nat (Decimal.nb_digits fp) in
      let m := (Z.of_N ip * 10 ^ k + Z.of_N (N.of_uint fp))%Z in
      let m := if neg then (- m)%Z else m in
      let e := (default 0%Z ex - k)%Z in
      if (0 <=? e)%Z then (m * 10 ^ e <=? n)%Z
      else (m <=? n * 10 ^ (- e))%Z
  end.

Definition py_le_int (x : pyval) (n : Z) : result bool :=
  match x with
  | VInt z => Ok (z <=? n)%Z
  | VBool b => Ok (Z.b2z b <=? n)%Z
  | VFloat f => Ok (float_le_int f n)
  | _ => Raise TypeError
  end.

(** The class [NonErrorFilter] *)
Module NonErrorFilter.
Section Filter.
Context `{PyLib}.

Definition filter (record : LogRecord) : result bool :=
  levelno ← getattr record "levelno";
  py_le_int levelno INFO.
End Filter.
End NonErrorFilter.

(** ** JSON documents and their text

    [json.dumps(obj, default=str)] is modelled in two steps: [to_json]
    is what the encoder makes of each Python value (the conversions of
    dictionary keys, the [TypeError] for a key it refuses, the
    [ValueError] for an integer with too many digits, [str] for an
    object it has no encoding for), [print] is the text it writes for
    the document, with the default separators and [ensure_ascii].
    [loads] reads a text as [json.loads] does, with the items of an
    object kept as pairs in the order written; [loads_dict] is the
    value with every object a dictionary, in which a key written twice
    holds its last value.  A string is a sequence of code points below
    256; text is a [list ascii], and an escape for a code point from
    256 on is not read. *)
Module Json.

Definition chars : string -> list ascii := list_ascii_of_string.

#[local] Unset Elimination Schemes.
Inductive json :=
  | JNull
  | JBool (b : bool)
  | JInt (z : Z)
  | JFloat (f : pyfloat)
  | JStr (s : string)
  | JArr (items : list json)
  | JObj (items : list (string * json)).
#[local] Set Elimination Schemes.

Definition quote : ascii := "034"%char.
Definition backslash : ascii := "092"%char.

(** *** Writing *)

Definition hex_digit (n : N) : ascii :=
  nth (N.to_nat n) (chars "0123456789abcdef") "0"%char.

(** [ESCAPE_ASCII] and [ESCAPE_DCT] of [json.encoder] *)
Definition escape (c : ascii) : list ascii :=
  let n := N_of_ascii c in
  if decide (c = backslash) then [backslash; backslash]
  else if decide (c = quote) then [backslash; quote]
  else if decide (n = 8%N) then [backslash; "b"%char]
  else if decide (n = 12%N) then [backslash; "f"%char]
  else if decide (n = 10%N) then [backslash; "n"%char]
  else if decide (n = 13%N) then [backslash; "r"%char]
  else if decide (n = 9%N) then [backslash; "t"%char]
  else if (n <? 32)%N || (126 <? n)%N then
    backslash :: chars "u00" ++ [hex_digit (n / 16); hex_digit (n mod 16)]
  else [c].

(** [py_encode_basestring_ascii] *)
Definition encode_basestring_ascii (s : string) : list ascii :=
  quote :: concat (escape <$> chars s) ++ [quote].

(** [int.__repr__] *)
Definition int_repr (z : Z) : list ascii :=
  chars (NilZero.string_of_int (Z.to_int z)).

(** [sys.int_info.default_max_str_digits]: the conversion of an integer
    to its text raises a [ValueError] when the integer has more decimal
    digits, the sign not counted. *)
Definition max_str_digits : Z := 4300.

Definition int_digits (z : Z) : Z := Z.of_nat (length (int_repr (Z.abs z))).

(** The integer can be written. *)
Definition int_ok (z : Z) : bool := (int_digits z <=? max_str_digits)%Z.

Definition digits (u : Decimal.uint) : list ascii :=
  chars (NilEmpty.string_of_uint u).

(** the exponent of a float's [repr]: a sign and two digits at least *)
Definition exponent (e : Z) : list ascii :=
  let n := Z.to_N (Z.abs e) in
  "e"%char :: (if (e <? 0)%Z then "-"%char else "+"%char)
    :: (if (n <? 10)%N then ["0"%char] else []) ++ digits (N.to_uint n).

(** [floatstr] of [json.encoder]: [float.__repr__], and the three names
    it writes when [allow_nan] is set *)
Definition floatstr (f : pyfloat) : list ascii :=
  match f with
  | FNaN => chars "NaN"
  | FInf false => chars "Infinity"
  | FInf true => chars "-Infinity"
  | FDec neg ip fp ex =>
      (if neg then ["-"%char] else []) ++ digits (N.to_uint ip)
      ++ match fp, ex with
         | Decimal.Nil, None => chars ".0"
         | Decimal.Nil, Some _ => []
         | _, _ => "."%char :: digits fp
         end
      ++ from_option exponent [] ex
  end.

Fixpoint join (sep : list ascii) (texts : list (list ascii)) : list ascii :=
  match texts with
  | [] => []
  | [t] => t
  | t :: texts => t ++ sep ++ join sep texts
  end.

Fixpoint print (j : json) : list ascii :=
  match j with
  | JNull => chars "null"
  | JBool true => chars "true"
  | JBool false => chars "false"
  | JInt z => int_repr z
  | JFloat f => floatstr f
  | JStr s => encode_basestring_ascii s
  | JArr items => "["%char :: join (chars ", ") (map print items) ++ ["]"%char]
  | JObj items =>
      "{"%char
      :: join (chars ", ")
           (map (fun kv => encode_basestring_ascii kv.1 ++ chars ": " ++ print kv.2)
                items)
      ++ ["}"%char]
  end.

(** A float with neither fraction digits nor exponent is written with
    the fraction [.0]. *)
Definition float_norm (f : pyfloat) : pyfloat :=
  match f with
  | FDec neg ip Decimal.Nil None => FDec neg ip (Decimal.D0 Decimal.Nil) None
  | _ => f
  end.

(** The key of an item, in [_iterencode_dict]: [skipkeys] is off. *)
Definition key_text (key : pyval) : result string :=
  match key with
  | VStr s => Ok s
  | VFloat f => Ok (string_of_list_ascii (floatstr f))
  | VBool true => Ok "true"
  | VBool false => Ok "false"
  | VNone => Ok "null"
  | VInt z =>
      if int_ok z then Ok (string_of_list_ascii (int_repr z))
      else Raise ValueError
  | _ => Raise TypeError
  end.

Fixpoint to_json (o : pyval) : result json :=
  match o with
  | VStr s => Ok (JStr s)
  | VNone => Ok JNull
  | VBool b => Ok (JBool b)
  | VInt z => if int_ok z then Ok (JInt z) else Raise ValueError
  | VFloat f => Ok (JFloat (float_norm f))
  | VList items | VTuple items => JArr <$> mapM to_json items
  | VDict items =>
      JObj <$> mapM (fun kv => k ← key_text kv.1; v ← to_json kv.2; Ok (k, v))
                    items
  | VTraceback _ text | VObj _ text => Ok (JStr text)
  end.

(** [json.dumps(obj, default=str)] *)
Definition dumps (obj : pyval) : result string :=
  j ← to_json obj; Ok (string_of_list_ascii (print j)).

(** *** Reading *)

Definition is_ws (c : ascii) : bool :=
  bool_decide (c = " "%char) || bool_decide (N_of_ascii c = 9%N)
  || bool_decide (N_of_ascii c = 10%N) || bool_decide (N_of_ascii c = 13%N).

Fixpoint skip_ws (s : list ascii) : list ascii :=
  match s with
  | c :: s' => if is_ws c then skip_ws s' else s
  | [] => []
  end.

Fixpoint strip_prefix (p s : list ascii) : option (list ascii) :=
  match p, s with
  | [], _ => Some s
  | a :: p, b :: s => if decide (a = b) then strip_prefix p s else None
  | _ :: _, [] => None
  end.

Definition digit_of (c : ascii) : option (Decimal.uint -> Decimal.uint) :=
  let n := N_of_ascii c in
  if decide (n = 48%N) then Some Decimal.D0
  else if decide (n = 49%N) then Some Decimal.D1
  else if decide (n = 50%N) then Some Decimal.D2
  else if decide (n = 51%N) then Some Decimal.D3
  else if decide (n = 52%N) then Some Decimal.D4
  else if decide (n = 53%N) then Some Decimal.D5
  else if decide (n = 54%N) then Some Decimal.D6
  else if decide (n = 55%N) then Some Decimal.D7
  else if decide (n = 56%N) then Some Decimal.D8
  else if decide (n = 57%N) then Some Decimal.D9
  else None.

(** the longest run of digits at the head of [s] *)
Fixpoint scan_digits (s : list ascii) : Decimal.uint * list ascii :=
  match s with
  | c :: s' =>
      match digit_of c with
      | Some d => let '(u, r) := scan_digits s' in (d u, r)
      | None => (Decimal.Nil, s)
      end
  | [] => (Decimal.Nil, [])
  end.

(** [0] or a run of digits that does not start with [0] *)
Definition scan_int (s : list ascii) : option (N * list ascii) :=
  match s with
  | c :: s' =>
      if decide (c = "0"%char) then Some (0%N, s')
      else match scan_digits s with
           | (Decimal.Nil, _) => None
           | (u, r) => Some (N.of_uint u, r)
           end
  | [] => None
  end.

(** the fraction, when a point and a digit follow *)
Definition scan_frac (s : list ascii) : option Decimal.uint * list ascii :=
  match s with
  | c :: s' =>
      if decide (c = "."%char) then
        match scan_digits s' with
        | (Decimal.Nil, _) => (None, s)
        | (u, r) => (Some u, r)
        end
      else (None, s)
  | [] => (None, [])
  end.

(** the exponent, when [e] or [E], an optional sign and a digit follow *)
Definition scan_exp (s : list ascii) : option Z * list ascii :=
  match s with
  | c :: s' =>
      if bool_decide (c = "e"%char) || bool_decide (c = "E"%char) then
        let '(neg, s'') :=
          match s' with
          | c' :: t =>
              if decide (c' = "-"%char) then (true, t)
              else if decide (c' = "+"%char) then (false, t)
              else (false, s')
          | [] => (false, s')
          end in
        match scan_digits s'' with
        | (Decimal.Nil, _) => (None, s)
        | (u, r) =>
            let n := Z.of_N (N.of_uint u) in
            (Some (if neg then (- n)%Z else n), r)
        end
      else (None, s)
  | [] => (None, [])
  end.

(** [NUMBER_RE] of [json.scanner] *)
Definition scan_number (s : list ascii) : option (json * list ascii) :=
  let '(neg, s1) :=
    match s with
    | c :: s' => if decide (c = "-"%char) then (true, s') else (false, s)
    | [] => (false, s)
    end in
  match scan_int s1 with
  | None => None
  | Some (ip, r) =>
      let '(fp, r1) := scan_frac r in
      let '(ex, r2) := scan_exp r1 in
      match fp, ex with
      | None, None => Some (JInt (if neg then (- Z.of_N ip)%Z else Z.of_N ip), r2)
      | _, _ => Some (JFloat (FDec neg ip (default Decimal.Nil fp) ex), r2)
      end
  end.

Definition hex_value (c : ascii) : option N :=
  let n := N_of_ascii c in
  if (48 <=? n)%N && (n <=? 57)%N then Some (n - 48)%N
  else if (97 <=? n)%N && (n <=? 102)%N then Some (n - 87)%N
  else if (65 <=? n)%N && (n <=? 70)%N then Some (n - 55)%N
  else None.

(** [BACKSLASH] of [json.decoder] *)
Definition simple_escape (c : ascii) : option ascii :=
  if decide (c = quote) then Some quote
  else if decide (c = backslash) then Some backslash
  else if decide (c = "/"%char) then Some "/"%char
  else if decide (c = "b"%char) then Some (ascii_of_N 8)
  else if decide (c = "f"%char) then Some (ascii_of_N 12)
  else if decide (c = "n"%char) then Some (ascii_of_N 10)
  else if decide (c = "r"%char) then Some (ascii_of_N 13)
  else if decide (c = "t"%char) then Some (ascii_of_N 9)
  else None.

(** Where [scan_string] stands: in plain text, after a backslash, or in
    the hexadecimal digits of a [\u] escape, with [more] digits to read after the next. *)
Inductive sstate :=
  | Plain
  | Escaped
  | Hex (more : nat) (acc : N).

(** [scanstring] of [json.decoder], from the character after the opening
    quote: the string and the text after its closing quote.  Control
    characters are refused ([strict]); so is an escape for a code point
    above 255, which a string of this model cannot hold. *)
Fixpoint scan_string (st : sstate) (s : list ascii) : option (string * list ascii) :=
  match s with
  | [] => None
  | c :: s' =>
      match st with
      | Plain =>
          if decide (c = quote) then Some (EmptyString, s')
          else if decide (c = backslash) then scan_string Escaped s'
          else if (N_of_ascii c <? 32)%N then None
          else '(str, r) ← scan_string Plain s'; Some (String c str, r)
      | Escaped =>
          if decide (c = "u"%char) then scan_string (Hex 3 0) s'
          else match simple_escape c with
               | Some ch => '(str, r) ← scan_string Plain s'; Some (String ch str, r)
               | None => None
               end
      | Hex more acc =>
          match hex_value c with
          | None => None
          | Some d =>
              let acc := (16 * acc + d)%N in
              match more with
              | S more => scan_string (Hex more acc) s'
              | O =>
                  if (acc <? 256)%N then
                    '(str, r) ← scan_string Plain s'; Some (String (ascii_of_N acc) str, r)
                  else None
              end
          end
      end
  end.

(** [scan_once] of [json.scanner] with [JSONArray] and [JSONObject] of
    [json.decoder]; [fuel] bounds the number of values read.
    [parse_value] starts at the first character of a value,
    [parse_elems] at the first element of a non-empty array,
    [parse_members] at the opening quote of the first key of a
    non-empty object. *)
Fixpoint parse_value (fuel : nat) (s : list ascii) : option (json * list ascii) :=
  match fuel with
  | O => None
  | S fuel =>
      match s with
      | [] => None
      | c :: s' =>
          if decide (c = quote) then
            '(str, r) ← scan_string Plain s'; Some (JStr str, r)
          else if decide (c = "{"%char) then
            match skip_ws s' with
            | c' :: r =>
                if decide (c' = "}"%char) then Some (JObj [], r)
                else '(items, r') ← parse_members fuel (c' :: r); Some (JObj items, r')
            | [] => None
            end
          else if decide (c = "["%char) then
            match skip_ws s' with
            | c' :: r =>
                if decide (c' = "]"%char) then Some (JArr [], r)
                else '(items, r') ← parse_elems fuel (c' :: r); Some (JArr items, r')
            | [] => None
            end
          else
            match strip_prefix (chars "null") s with
            | Some r => Some (JNull, r)
            | None =>
            match strip_prefix (chars "true") s with
            | Some r => Some (JBool true, r)
            | None =>
            match strip_prefix (chars "false") s with
            | Some r => Some (JBool false, r)
            | None =>
            match strip_prefix (chars "NaN") s with
            | Some r => Some (JFloat FNaN, r)
            | None =>
            match strip_prefix (chars "Infinity") s with
            | Some r => Some (JFloat (FInf false), r)
            | None =>
            match strip_prefix (chars "-Infinity") s with
            | Some r => Some (JFloat (FInf true), r)
            | None => scan_number s
            end end end end end end
      end
  end
with parse_elems (fuel : nat) (s : list ascii) : option (list json * list ascii) :=
  match fuel with
  | O => None
  | S fuel =>
      '(v, r) ← parse_value fuel s;
      match skip_ws r with
      | c :: r' =>
          if decide (c = ","%char) then
            '(vs, r'') ← parse_elems fuel (skip_ws r'); Some (v :: vs, r'')
          else if decide (c = "]"%char) then Some ([v], r')
          else None
      | [] => None
      end
  end
with parse_members (fuel : nat) (s : list ascii)
    : option (list (string * json) * list ascii) :=
  match fuel with
  | O => None
  | S fuel =>
      match s with
      | c :: s' =>
          if decide (c = quote) then
            '(key, r) ← scan_string Plain s';
            match skip_ws r with
            | c1 :: r1 =>
                if decide (c1 = ":"%char) then
                  '(v, r2) ← parse_value fuel (skip_ws r1);
                  match skip_ws r2 with
                  | c3 :: r3 =>
                      if decide (c3 = ","%char) then
                        '(kvs, r4) ← parse_members fuel (skip_ws r3);
                        Some ((key, v) :: kvs, r4)
                      else if decide (c3 = "}"%char) then Some ([(key, v)], r3)
                      else None
                  | [] => None
                  end
                else None
            | [] => None
            end
          else None
      | [] => None
      end
  end.

(** [json.loads(text, object_pairs_hook=list)]: one value, with
    nothing but white space around it.  The items of an object are
    kept as they come, in order. *)
Definition loads (text : string) : option json :=
  let s := chars text in
  '(j, r) ← parse_value (S (length s)) (skip_ws s);
  match skip_ws r with [] => Some j | _ :: _ => None end.

(** *** Measures and shapes used in the properties *)

(** The number of values of a document, one more for each item of an
    array or object: enough [fuel] to read its text. *)
Fixpoint size (j : json) : nat :=
  match j with
  | JArr items => S (sum_list (map (fun x => S (size x)) items))
  | JObj items => S (sum_list (map (fun kv => S (size kv.2)) items))
  | _ => 1
  end.

(** The document with every float written with a fraction or an
    exponent, as [float_norm] makes it. *)
Fixpoint jnorm (j : json) : json :=
  match j with
  | JFloat f => JFloat (float_norm f)
  | JArr items => JArr (map jnorm items)
  | JObj items => JObj (map (fun kv => (kv.1, jnorm kv.2)) items)
  | _ => j
  end.

(** A character of the range [' '..'~'] *)
Definition printable (c : ascii) : Prop := (32 <= N_of_ascii c <= 126)%N.

#[export] Instance printable_dec c : Decision (printable c).
Proof. unfold printable. apply _. Defined.

(** What may follow a value inside a document: nothing, a comma or a
    closing bracket. *)
Definition delimited (rest : list ascii) : Prop :=
  match rest with
  | [] => True
  | c :: _ => c = ","%char \/ c = "]"%char \/ c = "}"%char
  end.

(** The part of a float's text after its integer digits. *)
Definition float_tail (fp : Decimal.uint) (ex : option Z) : list ascii :=
  match fp, ex with
  | Decimal.Nil, None => chars ".0"
  | Decimal.Nil, Some _ => []
  | _, _ => "."%char :: digits fp
  end
  ++ from_option exponent [] ex.

(** A text that does not go on with a digit *)
Definition no_digit_head (s : list ascii) : Prop :=
  match s with c :: _ => digit_of c = None | [] => True end.

(** A text that starts as a number does. *)
Definition number_head (t : list ascii) : Prop :=
  match t with
  | c :: s =>
      is_Some (digit_of c)
      \/ (c = "-"%char
          /\ match s with c' :: _ => is_Some (digit_of c') | [] => False end)
  | [] => False
  end.

Definition reads_back (j : json) : Prop :=
  forall fuel rest,
    size j <= fuel -> delimited rest ->
    parse_value fuel (print j ++ rest) = Some (jnorm j, rest).

Definition item_text (kv : string * json) : list ascii :=
  encode_basestring_ascii kv.1 ++ chars ": " ++ print kv.2.





(** The document with every object made a dictionary, as
    [json.loads(text)] builds it: a key that comes twice stands where
    it came first and holds the last value. *)
Fixpoint as_dict (j : json) : json :=
  match j with
  | JArr items => JArr (map as_dict items)
  | JObj items =>
      JObj (Dict.update [] (map (fun kv => (kv.1, as_dict kv.2)) items))
  | _ => j
  end.

(** [json.loads(text)] *)
Definition loads_dict (text : string) : option json := as_dict <$> loads text.

(** No object inside [j] has a key twice. *)
Fixpoint unique_keys (j : json) : Prop :=
  match j with
  | JArr items => foldr (fun x P => unique_keys x /\ P) True items
  | JObj items =>
      NoDup items.*1 /\ foldr (fun kv P => unique_keys kv.2 /\ P) True items
  | _ => True
  end.

End Json.

Section Format.
Context `{PyLib}.

(** [MyJSONFormatter.format] *)
Definition format (self : MyJSONFormatter) (record : LogRecord) : result string :=
  message ← _prepare_log_dict self record;
  Json.dumps (VDict (prod_map VStr id <$> message)).
End Format.

(** ** The standard library on the records of the examples *)
Module CPython.

Definition nl : string := String "010"%char EmptyString.

(** [logging.Formatter.formatException(ei)], which prints
    [traceback.print_exception(ei[0], ei[1], ei[2])] and drops the
    final newline, on the shapes [record.exc_info] and
    [record.stack_info] have when the logging library fills them in:
    the triple of [sys.exc_info()], which is [(None, None, None)]
    outside an [except] block, and a string.  Indexing a string yields
    characters, and [traceback] fails on the one it takes for a
    traceback object.  An exception is an object [VObj cls text],
    taken without cause, context or notes.  A value that cannot be
    indexed is a [TypeError]; the answers for a dictionary and for an
    object of another class are not modelled. *)
Definition Formatter_formatException (ei : pyval) : result string :=
  match ei with
  | VStr s =>
      if decide (String.length s < 3) then Raise IndexError
      else Raise (AttributeError "tb_frame")
  | VTuple items | VList items =>
      match items !! 2, items !! 1 with
      | Some tb, Some value =>
          line ← match value with
                 | VNone => Ok "NoneType: None"
                 | VObj cls text =>
                     Ok (if decide (text = EmptyString) then cls
                         else cls +:+ ": " +:+ text)
                 | _ => Raise (OtherError "not modelled")
                 end;
          match tb with
          | VNone => Ok line
          | VTraceback frames _ =>
              Ok ("Traceback (most recent call last):" +:+ nl +:+ frames +:+ line)
          | _ => Raise (AttributeError "tb_frame")
          end
      | _, _ => Raise IndexError
      end
  | VNone | VBool _ | VInt _ | VFloat _ | VTraceback _ _ => Raise TypeError
  | VDict _ | VObj _ _ => Raise (OtherError "not modelled")
  end.

(** The library in a run in which the record's message renders to
    [message] and its creation time converts to [timestamp]; the
    examples read no method of the record. *)
Definition lib (message timestamp : string) : PyLib := {|
  getMessage _ := Ok message;
  class_attr _ _ := None;
  utc_isoformat _ := Ok timestamp;
  formatException := Formatter_formatException;
|}.

(** [sys.exc_info()] when no exception is being handled: what
    [Logger.exception] stores in [record.exc_info] then. *)
Definition no_exception : pyval := VTuple [VNone; VNone; VNone].

(** The instance dictionary of a record as [LogRecord.__init__] fills
    it, followed by the items of [extra] as [Logger.makeRecord] adds
    them. *)
Definition record_dict (msg levelname : string) (levelno : Z)
    (exc_info stack_info : pyval) (extra : dict) : dict :=
  [ ("name", VStr "my_logger"); ("msg", VStr msg); ("args", VTuple []);
    ("levelname", VStr levelname); ("levelno", VInt levelno);
    ("pathname", VStr "/app/test_logger.py"); ("filename", VStr "test_logger.py");
    ("module", VStr "test_logger"); ("exc_info", exc_info); ("exc_text", VNone);
    ("stack_info", stack_info); ("lineno", VInt 9); ("funcName", VStr "main");
    ("created", VFloat (FDec false 1721226679 (Decimal.D1 (Decimal.D2 (Decimal.D5 Decimal.Nil))) None));
    ("msecs", VFloat (FDec false 125 Decimal.Nil None));
    ("relativeCreated", VFloat (FDec false 12 (Decimal.D5 Decimal.Nil) None));
    ("thread", VInt 140085); ("threadName", VStr "MainThread");
    ("processName", VStr "MainProcess"); ("process", VInt 4242) ]
  ++ extra.

End CPython.

(** ** Formatters and records of the examples *)
Module Examples.
Import CPython.

Definition timestamp : string := "2024-07-17T14:31:19.125000+00:00".

(** The format spec that keeps the names [message] and [timestamp]. *)
Definition default_spec : MyJSONFormatter :=
  MyJSONFormatter__init__
    (Some [("level", "levelname"); ("message", "message");
           ("timestamp", "timestamp")]).

(** A format spec that gives [message] another output key. *)
Definition renaming_spec : MyJSONFormatter :=
  MyJSONFormatter__init__ (Some [("msg", "message")]).

(** The format spec in the docstring of [MyJSONFormatter]; a record
    has no attribute [time]. *)
Definition docstring_spec : MyJSONFormatter :=
  MyJSONFormatter__init__ (Some [("message", "msg"); ("timestamp", "time")]).

(** [logger.info("info")] *)
Definition info_record : LogRecord :=
  mkLogRecord (record_dict "info" "INFO" INFO VNone VNone []).

(** [logger.info("info", extra={"x": "hello"})] *)
Definition hello_record : LogRecord :=
  mkLogRecord (record_dict "info" "INFO" INFO VNone VNone [("x", VStr "hello")]).

(** [logger.info("info", extra={"level": 5, "conn": conn})], [conn] an
    object whose [str()] spans two lines *)
Definition level_record : LogRecord :=
  mkLogRecord
    (record_dict "info" "INFO" INFO VNone VNone
       [("level", VInt 5);
        ("conn", VObj "Connection" ("<Connection" +:+ nl +:+ "open>"))]).


(** [logger.exception("exception")] outside an [except] block, as
    [main] of [test_logger.py] calls it first *)
Definition exception_record : LogRecord :=
  mkLogRecord (record_dict "exception" "ERROR" ERROR no_exception VNone []).

(** [logger.info("info", stack_info=True)] *)
Definition stack_record : LogRecord :=
  mkLogRecord
    (record_dict "info" "INFO" INFO VNone
       (VStr ("Stack (most recent call last):" +:+ nl
              +:+ "  File test_logger.py, line 9, in main"))
       []).

(** The library in the run of each example *)
Definition info_lib : PyLib := lib "info" timestamp.
Definition exception_lib : PyLib := lib "exception" timestamp.

(** The lines of the examples, each given by its JSON document *)
Definition info_line : string :=
  string_of_list_ascii
    (Json.print
       (Json.JObj [("level", Json.JStr "INFO"); ("message", Json.JStr "info");
                   ("timestamp", Json.JStr timestamp)])).

Definition hello_line : string :=
  string_of_list_ascii
    (Json.print
       (Json.JObj [("level", Json.JStr "INFO"); ("message", Json.JStr "info");
                   ("timestamp", Json.JStr timestamp);
                   ("x", Json.JStr "hello")])).

Definition level_line : string :=
  string_of_list_ascii
    (Json.print
       (Json.JObj [("level", Json.JInt 5); ("message", Json.JStr "info");
                   ("timestamp", Json.JStr timestamp);
                   ("conn", Json.JStr ("<Connection" +:+ nl +:+ "open>"))])).

Definition renamed_line : string :=
  string_of_list_ascii
    (Json.print
       (Json.JObj [("msg", Json.JStr "info");
                   ("timestamp", Json.JStr timestamp)])).


End Examples.

(** * Setting up logging *)

(** ** Paths

    A [pathlib.Path] on a POSIX system: its root (empty for a relative
    path, one slash, or two slashes for a text that starts with exactly
    two) and its components after the root. *)
Module Path.
Record t := mk { root : string; parts : list string }.

(** [s.split("/")] *)
Fixpoint split (s : string) : list string :=
  match s with
  | EmptyString => [EmptyString]
  | String c s =>
      if decide (c = "/"%char) then EmptyString :: split s
      else match split s with
           | part :: rest => String c part :: rest
           | [] => [String c EmptyString]
           end
  end.

(** The number of slashes a text starts with. *)
Fixpoint leading (s : string) : nat :=
  match s with
  | String c s => if decide (c = "/"%char) then S (leading s) else 0
  | EmptyString => 0
  end.

(** [Path(s)]: empty components and components [.] are dropped. *)
Definition of_string (s : string) : t :=
  {| root := match leading s with
             | 0 => EmptyString
             | 2 => "//"
             | _ => "/"
             end;
     parts := filter (fun part => part ≠ EmptyString /\ part ≠ ".") (split s) |}.

(** [p / s]: a text with a root replaces [p]. *)
Definition truediv (p : t) (s : string) : t :=
  let q := of_string s in
  if decide (root q = EmptyString) then mk (root p) (parts p ++ parts q) else q.

(** [p.parent]: a path without components is its own parent. *)
Definition parent (p : t) : t :=
  match parts p with
  | [] => p
  | _ => mk (root p) (removelast (parts p))
  end.

(** [p.name] *)
Definition name (p : t) : string := default EmptyString (last (parts p)).

(** [str(p)] *)
Definition str (p : t) : string :=
  let text := root p +:+ String.concat "/" (parts p) in
  if decide (text = EmptyString) then "." else text.
End Path.

(** ** Membership, subscription and item assignment

    The three operations [setup_logging] applies to the configuration,
    with a string as member or key, on the values [json.load] returns.
    An object of another class is not modelled. *)
Module Item.

(** The value a dictionary holds under the string [k]. *)
Fixpoint lookup (k : string) (items : list (pyval * pyval)) : option pyval :=
  match items with
  | [] => None
  | (VStr k', v) :: items => if decide (k = k') then Some v else lookup k items
  | _ :: items => lookup k items
  end.

(** The dictionary after [d[k] = v]. *)
Fixpoint store (k : string) (v : pyval) (items : list (pyval * pyval))
    : list (pyval * pyval) :=
  match items with
  | [] => [(VStr k, v)]
  | (VStr k', v') :: items =>
      if decide (k = k') then (VStr k, v) :: items
      else (VStr k', v') :: store k v items
  | item :: items => item :: store k v items
  end.

(** [sub in s] for two strings *)
Fixpoint infix (sub s : string) : bool :=
  String.prefix sub s
  || match s with String _ s => infix sub s | EmptyString => false end.

(** [x == k] for the string [k]: no value of another type equals a
    string. *)
Definition eq_str (k : string) (x : pyval) : bool :=
  match x with VStr s => bool_decide (s = k) | _ => false end.

(** [k in o] *)
Definition contains (k : string) (o : pyval) : result bool :=
  match o with
  | VDict items => Ok (if lookup k items is Some _ then true else false)
  | VList items | VTuple items => Ok (existsb (eq_str k) items)
  | VStr s => Ok (infix k s)
  | VNone | VBool _ | VInt _ | VFloat _ | VTraceback _ _ => Raise TypeError
  | VObj _ _ => Raise (OtherError "not modelled")
  end.

(** [o[k]] *)
Definition getitem (o : pyval) (k : string) : result pyval :=
  match o with
  | VDict items =>
      match lookup k items with
      | Some v => Ok v
      | None => Raise (OtherError "KeyError")
      end
  | VObj _ _ => Raise (OtherError "not modelled")
  | _ => Raise TypeError
  end.

(** [o[k] = v]: the object [o] after the assignment. *)
Definition setitem (o : pyval) (k : string) (v : pyval) : result pyval :=
  match o with
  | VDict items => Ok (VDict (store k v items))
  | VObj _ _ => Raise (OtherError "not modelled")
  | _ => Raise TypeError
  end.

(** The dictionary [o] when the object it holds under [k] has been
    changed in place to [v]. *)
Definition held (o : pyval) (k : string) (v : pyval) : pyval :=
  match o with
  | VDict items => VDict (store k v items)
  | _ => o
  end.
End Item.

(** ** [setup_logging] *)
Module Setup.

(** What [setup_logging] asks of the system, in the order it asks. *)
Inductive call :=
  | Mkdir (dir : Path.t)
  | Load (file : Path.t)
  | DictConfig (config : pyval).

(** The answers of the system.  [setup_logging] makes each call once
    at most, so an answer is given by the argument of the call. *)
Class System := {
  (** [dir.mkdir(parents=True, exist_ok=True)] *)
  mkdir : Path.t -> result unit;
  (** [with open(file) as f_in: json.load(f_in)] *)
  load : Path.t -> result pyval;
  (** [logging.config.dictConfig(config)] *)
  dictConfig : pyval -> result unit;
}.

(** A computation: the calls made, and the value returned or the
    exception raised. *)
Definition io (A : Type) : Type := (list call * result A)%type.

#[export] Instance io_ret : MRet io := fun _ a => ([], Ok a).
#[export] Instance io_bind : MBind io := fun _ _ f m =>
  match m.2 with
  | Ok a => (m.1 ++ (f a).1, (f a).2)
  | Raise e => (m.1, Raise e)
  end.

Definition perform {A} (c : call) (answer : result A) : io A := ([c], answer).
Definition pure {A} (m : result A) : io A := ([], m).

(** Lines 175-176: the file name of the handler [file_json].  The
    dictionaries are changed in place, so [config] holds the changed
    handler afterwards. *)
Definition set_filename (config : pyval) (log_file : string) : result pyval :=
  has_handlers ← Item.contains "handlers" config;
  has_file_json ←
    (if has_handlers : bool
     then handlers ← Item.getitem config "handlers";
          Item.contains "file_json" handlers
     else Ok false);
  if has_file_json : bool then
    handlers ← Item.getitem config "handlers";
    file_json ← Item.getitem handlers "file_json";
    file_json ← Item.setitem file_json "filename" (VStr log_file);
    Ok (Item.held config "handlers" (Item.held handlers "file_json" file_json))
  else Ok config.

Definition log_dir (__file__ : string) : Path.t :=
  Path.truediv (Path.parent (Path.of_string __file__)) "logs".

Definition log_file (__file__ : string) : Path.t :=
  Path.truediv (log_dir __file__) "Logs.log.jsonl".

Definition config_file (__file__ : string) : Path.t :=
  Path.truediv (Path.parent (Path.of_string __file__))
               "logging_configs/logging_config.json".

Section Setup.
Context `{System}.

(** [__file__] is the path of [logger.py]. *)
Definition setup_logging (__file__ : string) : io unit :=
  let log_dir := log_dir __file__ in
  _ ← perform (Mkdir log_dir) (mkdir log_dir);
  let log_file := log_file __file__ in
  let config_file := config_file __file__ in
  config ← perform (Load config_file) (load config_file);
  config ← pure (set_filename config (Path.str log_file));
  perform (DictConfig config) (dictConfig config).
End Setup.
End Setup.

(** * Vocabulary of the properties *)

(** The keys after a run of assignments: a key takes its place at its
    first assignment and keeps it. *)
Definition push (ks : list string) (k : string) : list string :=
  if decide (k ∈ ks) then ks else ks ++ [k].
Definition merge (ks new : list string) : list string := foldl push ks new.

(** The derived fields, given the texts computed for them; [exc] and
    [stack] are [None] for a field that is left out. *)
Definition derived (message timestamp : string) (exc stack : option string) : dict :=
  [("message", VStr message); ("timestamp", VStr timestamp)]
  ++ from_option (fun t => [("exc_info", VStr t)]) [] exc
  ++ from_option (fun t => [("stack_info", VStr t)]) [] stack.

(** The names of the derived fields of a record whose attributes
    [exc_info] and [stack_info] hold the given values. *)
Definition derived_names (exc_info stack_info : pyval) : list string :=
  ["message"; "timestamp"]
  ++ (if is_None exc_info then [] else ["exc_info"])
  ++ (if is_None stack_info then [] else ["stack_info"]).

(** The derived fields that no entry of the format spec reads. *)
Definition leftover (self : MyJSONFormatter) (fields : dict) : dict :=
  filter (fun kv => kv.1 ∉ (fmt_keys self).*2) fields.

(** The extra fields of a record: its attributes whose names are not in
    [LOG_RECORD_BUILTIN_ATTRS]. *)
Definition extra_fields (record : LogRecord) : dict :=
  filter (fun kv => kv.1 ∉ LOG_RECORD_BUILTIN_ATTRS) (__dict__ record).

(** The instance dictionary of a record holds a name once. *)
Definition wf_record (record : LogRecord) : Prop :=
  NoDup (Dict.keys (__dict__ record)).

(** What is left of [fields] after the entries of the format spec have
    taken the derived fields they read. *)
Definition pops (fields : dict) (sources : list string) : dict :=
  foldl (fun d val => (Dict.pop val d).2) fields sources.

(** The items of the JSON object [json.dumps] writes for a mapping
    with string keys: its keys in their order, each with the document
    of its value. *)
Definition encoded (message : dict) (items : list (string * Json.json)) : Prop :=
  Forall2 (fun kv item => item.1 = kv.1 /\ Json.to_json kv.2 = Ok item.2)
          message items.

Section Vocabulary.
Context `{PyLib}.

(** The text of an optional derived field: none when the datum is
    [None], what [formatException] returns for it otherwise. *)
Definition formatted (datum : pyval) (text : option string) : Prop :=
  if is_None datum then text = None
  else exists t, formatException datum = Ok t /\ text = Some t.

End Vocabulary.

(** The configuration is not a mapping where [setup_logging] would
    assign to it: [None], a number, a string, a list or a tuple. *)
Definition no_mapping (v : pyval) : Prop :=
  match v with
  | VDict _ | VObj _ _ => False
  | _ => True
  end.

(** ** Configurations and systems of the examples *)
Module SetupExamples.
Import Setup.

(** The path of [logger.py] in the examples *)
Definition script : string := "/app/src/logger.py".

Definition stderr_handler : pyval :=
  VDict [ (VStr "class", VStr "logging.StreamHandler");
          (VStr "level", VStr "WARNING");
          (VStr "stream", VStr "ext://sys.stderr") ].

Definition file_json_items (filename : string) : list (pyval * pyval) :=
  [ (VStr "class", VStr "logging.handlers.RotatingFileHandler");
    (VStr "level", VStr "DEBUG");
    (VStr "formatter", VStr "json");
    (VStr "filename", VStr filename);
    (VStr "maxBytes", VInt 10000);
    (VStr "filters", VList [VStr "no_errors"]) ].

Definition handlers_items (filename : string) : list (pyval * pyval) :=
  [ (VStr "stderr", stderr_handler);
    (VStr "file_json", VDict (file_json_items filename)) ].

Definition loggers : pyval :=
  VDict [ (VStr "root",
           VDict [ (VStr "level", VStr "DEBUG");
                   (VStr "handlers", VList [VStr "stderr"; VStr "file_json"]) ]) ].

Definition config_items (filename : string) : list (pyval * pyval) :=
  [ (VStr "version", VInt 1);
    (VStr "disable_existing_loggers", VBool false);
    (VStr "handlers", VDict (handlers_items filename));
    (VStr "loggers", loggers) ].

(** A configuration with a handler [file_json] that names a file. *)
Definition file_config (filename : string) : pyval :=
  VDict (config_items filename).

(** A configuration without a handler [file_json]. *)
Definition console_items : list (pyval * pyval) :=
  [ (VStr "version", VInt 1);
    (VStr "handlers", VDict [ (VStr "stderr", stderr_handler) ]);
    (VStr "loggers", loggers) ].

(** A configuration whose [file_json] is the name of a file. *)
Definition text_handlers : list (pyval * pyval) :=
  [ (VStr "stderr", stderr_handler);
    (VStr "file_json", VStr "my_app.log.jsonl") ].

Definition text_items : list (pyval * pyval) :=
  [ (VStr "version", VInt 1); (VStr "handlers", VDict text_handlers) ].

(** A system on which the directory can be made, the configuration
    file holds [config], and [dictConfig] accepts what it is given. *)
Definition system (config : pyval) : System := {|
  mkdir _ := Ok ();
  load _ := Ok config;
  dictConfig _ := Ok ();
|}.
End SetupExamples.

(** ** More formatters, records and lines of the examples *)
Module FormatterExamples.
Import CPython Examples.

(** A format spec with two entries that read [timestamp]. *)
Definition twice_spec : MyJSONFormatter :=
  MyJSONFormatter__init__
    (Some [("time", "timestamp"); ("timestamp", "timestamp")]).

(** [logger.info("info")] called from another line of another
    function, in another thread. *)
Definition moved_record : LogRecord :=
  mkLogRecord
    (Dict.set "lineno" (VInt 41)
       (Dict.set "funcName" (VStr "helper")
          (Dict.set "thread" (VInt 140099) (__dict__ info_record)))).

End FormatterExamples.

(** ** Tactics for the examples *)

(** An equation between closed terms *)
Ltac run := vm_compute; reflexivity.

(** A decidable closed proposition *)
Ltac decided := apply (bool_decide_unpack _); vm_compute; exact I.



(** * Properties *)

(** ** Dictionaries *)
Module DictFacts.
Import Dict.

Section Facts.
Context {V : Type}.
Implicit Types (d other : Dict.t V) (k : string) (v : V).

Lemma get_set k' k v d :
  get k' (set k v d) = if decide (k' = k) then Some v else get k' d.
Proof.
  induction d as [|[k0 v0] d IH]; simpl.
  - repeat case_decide; congruence.
  - destruct (decide (k = k0)) as [->|]; simpl; repeat case_decide; congruence.
Qed.

Lemma get_None k d : get k d = None <-> k ∉ keys d.
Proof.
  unfold keys. induction d as [|[k0 v0] d IH]; simpl.
  - split; [intros _; apply not_elem_of_nil | done].
  - rewrite not_elem_of_cons. case_decide; [|tauto].
    split; [done | intros [? _]; done].
Qed.

Lemma get_Some_elem_of k v d : get k d = Some v -> (k, v) ∈ d.
Proof.
  induction d as [|[k0 v0] d IH]; simpl; [done|].
  case_decide; [intros [= ->]; subst; left | right; auto].
Qed.

Lemma get_is_Some k d : is_Some (get k d) <-> k ∈ keys d.
Proof.
  rewrite <- not_eq_None_Some, get_None.
  split; [apply dec_stable | auto].
Qed.

Lemma elem_of_get k v d : NoDup (keys d) -> (k, v) ∈ d -> get k d = Some v.
Proof.
  unfold keys. induction d as [|[k0 v0] d IH]; simpl.
  - intros _ ?%elem_of_nil; done.
  - rewrite NoDup_cons. intros [Hk Hd] [[= -> ->]|Hin]%elem_of_cons.
    + by rewrite decide_True.
    + rewrite decide_False; [auto|].
      intros ->. apply Hk, list_elem_of_fmap. by exists (k0, v).
Qed.

Lemma keys_set k v d : keys (set k v d) = push (keys d) k.
Proof.
  unfold keys, push. induction d as [|[k0 v0] d IH]; simpl; [done|].
  destruct (decide (k = k0)) as [->|Hne]; csimpl.
  - rewrite decide_True; [done | left].
  - rewrite IH. destruct (decide (k ∈ d.*1)).
    + rewrite decide_True; [done | by right].
    + rewrite decide_False; [done|]. by intros [?|?]%elem_of_cons.
Qed.

Lemma keys_update d other : keys (update d other) = merge (keys d) (keys other).
Proof.
  unfold update, merge, keys. revert d.
  induction other as [|[k v] other IH]; intros d; simpl; [done|].
  rewrite IH. f_equal. apply keys_set.
Qed.

Lemma get_update k d other :
  NoDup (keys other) ->
  get k (update d other) = from_option Some (get k d) (get k other).
Proof.
  unfold update, keys. revert d.
  induction other as [|[k0 v0] other IH]; intros d; simpl; [done|].
  rewrite NoDup_cons. intros [Hk Hother]. rewrite IH, get_set by done.
  case_decide; [subst|done].
  by apply get_None in Hk as ->.
Qed.

Lemma pop_fst k d : (pop k d).1 = get k d.
Proof.
  induction d as [|[k0 v0] d IH]; simpl; [done|].
  case_decide; [done|]. by destruct (pop k d).
Qed.

Lemma filter_ne_id k d :
  k ∉ keys d -> filter (fun kv => kv.1 ≠ k) d = d.
Proof.
  unfold keys. induction d as [|[k0 v0] d IH]; [done|].
  rewrite fmap_cons, not_elem_of_cons. intros [Hne Hd].
  rewrite filter_cons_True by (simpl; auto). by rewrite IH.
Qed.

Lemma pop_snd k d :
  NoDup (keys d) -> (pop k d).2 = filter (fun kv => kv.1 ≠ k) d.
Proof.
  unfold keys. induction d as [|[k0 v0] d IH]; [done|].
  rewrite fmap_cons, NoDup_cons. intros [Hk Hd].
  cbn [pop]. case_decide as Hkk.
  - subst k0. rewrite filter_cons_False by (simpl; auto).
    symmetry. by apply filter_ne_id.
  - rewrite filter_cons_True by (simpl; auto).
    specialize (IH Hd). destruct (pop k d); simpl in *. by rewrite IH.
Qed.

Lemma NoDup_keys_filter (P : string * V -> Prop) `{!forall x, Decision (P x)} d :
  NoDup (keys d) -> NoDup (keys (filter P d)).
Proof.
  unfold keys. induction d as [|[k0 v0] d IH]; [done|].
  rewrite fmap_cons, NoDup_cons. intros [Hk Hd].
  destruct (decide (P (k0, v0))).
  - rewrite filter_cons_True by done. rewrite fmap_cons.
    apply NoDup_cons. split; [|auto].
    intros ([k v] & Heq & [_ Hin]%list_elem_of_filter)%list_elem_of_fmap.
    simpl in Heq. subst k. apply Hk, list_elem_of_fmap. by exists (k0, v).
  - rewrite filter_cons_False by done. auto.
Qed.

Lemma get_pop_ne k k' d : k ≠ k' -> get k (pop k' d).2 = get k d.
Proof.
  intros Hne. induction d as [|[k0 v0] d IH]; [done|].
  cbn [pop get]. case_decide as Hk0.
  - subst k0. by rewrite decide_False.
  - destruct (pop k' d) as [o r]. simpl in *. by rewrite IH.
Qed.

Lemma pop_snd_subseteq k d : (pop k d).2 ⊆ d.
Proof.
  induction d as [|[k0 v0] d IH]; [done|].
  cbn [pop]. case_decide.
  - intros x ?. by right.
  - destruct (pop k d) as [o r]. simpl in *.
    intros x [->|?]%elem_of_cons; [left | right; auto].
Qed.

Lemma get_update_notin k d other :
  k ∉ keys other -> get k (update d other) = get k d.
Proof.
  unfold update, keys. revert d.
  induction other as [|[k0 v0] other IH]; intros d; [done|].
  rewrite fmap_cons, not_elem_of_cons. intros [Hne Hk]. simpl.
  rewrite IH, get_set by done. by rewrite decide_False.
Qed.




Lemma get_filter (P : string -> Prop) `{!forall x, Decision (P x)}
    `{!forall kv : string * V, Decision (P kv.1)} k d :
  get k (filter (fun kv => P kv.1) d) = if decide (P k) then get k d else None.
Proof.
  induction d as [|[k0 v0] d IH]; [by case_decide|].
  rewrite filter_cons. cbn [fst get].
  repeat (case_decide; cbn [get]; subst; rewrite ?IH; try done).
Qed.
End Facts.

Lemma elem_of_push ks k k' : k' ∈ push ks k <-> k' ∈ ks \/ k' = k.
Proof.
  unfold push. case_decide.
  - split; [auto | intros [?| ->]; done].
  - rewrite elem_of_app, list_elem_of_singleton. done.
Qed.

Lemma elem_of_merge ks new k : k ∈ merge ks new <-> k ∈ ks \/ k ∈ new.
Proof.
  unfold merge. revert ks. induction new as [|k0 new IH]; intros ks; simpl.
  - rewrite elem_of_nil. tauto.
  - rewrite IH, elem_of_push, elem_of_cons. tauto.
Qed.

Lemma NoDup_push ks k : NoDup ks -> NoDup (push ks k).
Proof.
  unfold push. intros. case_decide; [done|].
  apply NoDup_app. split_and!; [done| |apply NoDup_singleton].
  intros ? ? ->%list_elem_of_singleton. done.
Qed.

Lemma NoDup_merge ks new : NoDup ks -> NoDup (merge ks new).
Proof.
  unfold merge. revert ks. induction new; simpl; auto using NoDup_push.
Qed.

Lemma merge_app ks a b : merge ks (a ++ b) = merge (merge ks a) b.
Proof. apply foldl_app. Qed.

(** Without repeated keys the assignments append the keys as they come. *)
Lemma merge_NoDup ks new : NoDup (ks ++ new) -> merge ks new = ks ++ new.
Proof.
  unfold merge. revert ks. induction new as [|k new IH]; intros ks; simpl.
  - by rewrite app_nil_r.
  - intros Hnd. replace (ks ++ k :: new) with ((ks ++ [k]) ++ new) in *
      by (by rewrite <- app_assoc).
    unfold push. rewrite decide_False.
    + by apply IH.
    + apply NoDup_app in Hnd as (Hnd & _ & _).
      apply NoDup_app in Hnd as (_ & Hnd & _).
      intros Hin. apply (Hnd k Hin). left.
  Qed.

Lemma NoDup_set {V} k (v : V) d : NoDup (keys d) -> NoDup (keys (set k v d)).
Proof. rewrite keys_set. apply NoDup_push. Qed.

Lemma NoDup_update {V} (d other : Dict.t V) :
  NoDup (keys d) -> NoDup (keys (update d other)).
Proof. rewrite keys_update. apply NoDup_merge. Qed.

End DictFacts.

(** ** The mapping [_prepare_log_dict] builds *)

Section FormatterFacts.
Context `{PyLib}.
Import DictFacts.

Lemma bind_Ok {A B} (m : result A) (f : A -> result B) b :
  m ≫= f = Ok b <-> exists a, m = Ok a /\ f a = Ok b.
Proof.
  destruct m as [a|e]; simpl.
  - split; [by exists a | by intros (? & [= <-] & ?)].
  - split; [done | by intros (? & ? & _)].
Qed.

Lemma always_fields_Ok record fields :
  always_fields record = Ok fields <->
  exists message created timestamp exc_info stack_info exc stack,
    getMessage record = Ok message /\
    getattr record "created" = Ok created /\
    utc_isoformat created = Ok timestamp /\
    getattr record "exc_info" = Ok exc_info /\ formatted exc_info exc /\
    getattr record "stack_info" = Ok stack_info /\ formatted stack_info stack /\
    fields = derived message timestamp exc stack.
Proof.
  unfold always_fields, formatted. split.
  - intros (message & Hm & (created & Hc & (timestamp & Ht
      & (exc_info & He & (f1 & Hf1 & (stack_info & Hs & (f2 & Hf2 & [= <-]
      )%bind_Ok)%bind_Ok)%bind_Ok)%bind_Ok)%bind_Ok)%bind_Ok)%bind_Ok.
    destruct (is_None exc_info) eqn:Hne.
    + injection Hf1 as <-. destruct (is_None stack_info) eqn:Hns.
      * injection Hf2 as <-.
        exists message, created, timestamp, exc_info, stack_info, None, None.
        rewrite Hne, Hns. done.
      * apply bind_Ok in Hf2 as (t & Hfs & [= <-]).
        exists message, created, timestamp, exc_info, stack_info, None, (Some t).
        rewrite Hne, Hns. split_and!; eauto.
    + apply bind_Ok in Hf1 as (t1 & Hfe & [= <-]).
      destruct (is_None stack_info) eqn:Hns.
      * injection Hf2 as <-.
        exists message, created, timestamp, exc_info, stack_info, (Some t1), None.
        rewrite Hne, Hns. split_and!; eauto.
      * apply bind_Ok in Hf2 as (t & Hfs & [= <-]).
        exists message, created, timestamp, exc_info, stack_info, (Some t1), (Some t).
        rewrite Hne, Hns. split_and!; eauto.
  - intros (message & created & timestamp & exc_info & stack_info & exc & stack
            & -> & -> & Ht & -> & He & -> & Hs & ->).
    simpl. rewrite Ht. simpl.
    destruct (is_None exc_info), (is_None stack_info).
    + by subst.
    + destruct Hs as (t & -> & ->). by subst.
    + destruct He as (t & -> & ->). by subst.
    + destruct He as (t1 & -> & ->), Hs as (t & -> & ->). done.
Qed.

Lemma filter_id {A} (P : A -> Prop) `{!forall x, Decision (P x)} (l : list A) :
  (forall x, x ∈ l -> P x) -> filter P l = l.
Proof.
  induction l as [|x l IH]; intros HP; [done|].
  rewrite filter_cons_True by (apply HP; left).
  f_equal. apply IH. intros y Hy. apply HP. by right.
Qed.

Lemma pops_filter fields sources :
  NoDup (Dict.keys fields) ->
  pops fields sources = filter (fun kv => kv.1 ∉ sources) fields.
Proof.
  unfold pops. revert fields.
  induction sources as [|val sources IH]; intros fields Hnd; simpl.
  - symmetry. apply filter_id. intros ? _. apply not_elem_of_nil.
  - rewrite pop_snd by done.
    rewrite IH by (by apply NoDup_keys_filter).
    rewrite list_filter_filter. apply list_filter_iff. intros [k v]. simpl.
    rewrite not_elem_of_cons. tauto.
Qed.

Lemma comprehension_Ok record items fields message built left :
  comprehension record items fields message = Ok (built, left) ->
  left = pops fields items.*2
  /\ Dict.keys built = merge (Dict.keys message) items.*1.
Proof.
  revert fields message.
  induction items as [|[key val] items IH]; intros fields message; simpl.
  - by intros [= -> ->].
  - destruct (Dict.pop val fields) as [popped fields'] eqn:Hpop.
    intros (v & _ & Hrest)%bind_Ok. apply IH in Hrest as [-> ->].
    split.
    + done.
    + rewrite keys_set. done.
Qed.

Lemma keys_filter {V} (P : string -> Prop) `{!forall x, Decision (P x)}
    `{!forall kv : string * V, Decision (P kv.1)} (d : Dict.t V) :
  Dict.keys (filter (fun kv => P kv.1) d) = filter P (Dict.keys d).
Proof.
  unfold Dict.keys. induction d as [|[k v] d IH]; [done|].
  rewrite fmap_cons, !filter_cons. simpl.
  do 2 case_decide; try done; by rewrite ?fmap_cons, IH.
Qed.

Lemma add_extras_update items message :
  add_extras items message
  = Dict.update message
      (filter (fun kv => kv.1 ∉ LOG_RECORD_BUILTIN_ATTRS) items).
Proof.
  unfold add_extras, Dict.update. revert message.
  induction items as [|[k v] items IH]; intros message; [done|].
  rewrite filter_cons. simpl. case_decide; simpl; apply IH.
Qed.

Lemma NoDup_derived message timestamp exc stack :
  NoDup (Dict.keys (derived message timestamp exc stack)).
Proof. destruct exc, stack; by apply (bool_decide_unpack _). Qed.

Lemma NoDup_always_fields record fields :
  always_fields record = Ok fields -> NoDup (Dict.keys fields).
Proof.
  intros (? & ? & ? & ? & ? & ? & ? & Hrest)%always_fields_Ok.
  destruct Hrest as (_ & _ & _ & _ & _ & _ & _ & ->). apply NoDup_derived.
Qed.

(** The three stages of [_prepare_log_dict]. *)
Lemma prepare_Ok self record message :
  _prepare_log_dict self record = Ok message <->
  exists fields built,
    always_fields record = Ok fields /\
    comprehension record (fmt_keys self) fields []
      = Ok (built, leftover self fields) /\
    message = Dict.update (Dict.update built (leftover self fields))
                          (extra_fields record).
Proof.
  unfold _prepare_log_dict. rewrite bind_Ok. split.
  - intros (fields & Hf & ([built left] & Hc & [= <-])%bind_Ok).
    exists fields, built. split; [done|].
    destruct (comprehension_Ok _ _ _ _ _ _ Hc) as [Hl _].
    rewrite pops_filter in Hl by eauto using NoDup_always_fields.
    subst left. by rewrite add_extras_update.
  - intros (fields & built & Hf & Hc & ->).
    exists fields. split; [done|]. rewrite Hc. simpl.
    by rewrite add_extras_update.
Qed.

Lemma prepare_keys self record message :
  _prepare_log_dict self record = Ok message ->
  exists fields,
    always_fields record = Ok fields /\
    Dict.keys message
    = merge [] ((fmt_keys self).*1 ++ Dict.keys (leftover self fields)
                ++ Dict.keys (extra_fields record)).
Proof.
  intros (fields & built & Hf & Hc & ->)%prepare_Ok.
  exists fields. split; [done|].
  apply comprehension_Ok in Hc as [_ Hb].
  by rewrite !keys_update, Hb, !merge_app.
Qed.

Lemma NoDup_prepare self record message :
  _prepare_log_dict self record = Ok message -> NoDup (Dict.keys message).
Proof.
  intros (fields & _ & ->)%prepare_keys. apply NoDup_merge, NoDup_nil_2.
Qed.

Lemma NoDup_extra_fields record :
  wf_record record -> NoDup (Dict.keys (extra_fields record)).
Proof. apply NoDup_keys_filter. Qed.

Lemma NoDup_leftover self record fields :
  always_fields record = Ok fields -> NoDup (Dict.keys (leftover self fields)).
Proof. intros. eapply NoDup_keys_filter, NoDup_always_fields; eauto. Qed.

(** What the mapping holds under a key: the extra field of that name;
    failing that, the leftover derived field; failing that, what the
    format spec put there. *)
Lemma prepare_get self record fields built k :
  wf_record record ->
  always_fields record = Ok fields ->
  Dict.get k (Dict.update (Dict.update built (leftover self fields))
                          (extra_fields record))
  = from_option Some
      (from_option Some (Dict.get k built) (Dict.get k (leftover self fields)))
      (Dict.get k (extra_fields record)).
Proof.
  intros Hwf Hf.
  rewrite get_update by by apply NoDup_extra_fields.
  by rewrite get_update by by eapply NoDup_leftover.
Qed.

Lemma prepare_get_extra self record message k v :
  wf_record record ->
  _prepare_log_dict self record = Ok message ->
  (k, v) ∈ extra_fields record ->
  Dict.get k message = Some v.
Proof.
  intros Hwf (fields & built & Hf & _ & ->)%prepare_Ok Hin.
  rewrite prepare_get by done.
  assert (Dict.get k (extra_fields record) = Some v) as ->
    by (apply elem_of_get; auto using NoDup_extra_fields).
  done.
Qed.

Lemma getattr_Raise record name e :
  getattr record name = Raise e ->
  e = AttributeError name /\ hasattr record name = false.
Proof.
  unfold hasattr, getattr.
  destruct (Dict.get name (__dict__ record)); [done|].
  destruct (class_attr record name); [done|]. by intros [= <-].
Qed.


Lemma comprehension_get_other record items fields message built left k :
  comprehension record items fields message = Ok (built, left) ->
  k ∉ items.*1 -> Dict.get k built = Dict.get k message.
Proof.
  revert fields message.
  induction items as [|[key val] items IH]; intros fields message; simpl.
  - by intros [= -> ->].
  - destruct (Dict.pop val fields) as [popped fields'].
    intros (v & _ & Hrest)%bind_Ok [Hne Hk]%not_elem_of_cons.
    rewrite (IH _ _ Hrest Hk), get_set. by rewrite decide_False.
Qed.

(** The entry that alone reads a derived field puts it under its
    output key. *)
Lemma comprehension_get record items fields message built left k a v :
  comprehension record items fields message = Ok (built, left) ->
  NoDup items.*1 ->
  (k, a) ∈ items -> (forall k', (k', a) ∈ items -> k' = k) ->
  Dict.get a fields = Some v -> is_None v = false ->
  Dict.get k built = Some v.
Proof.
  revert fields message.
  induction items as [|[key val] items IH]; intros fields message; simpl.
  - intros _ _ ?%elem_of_nil; done.
  - pose proof (pop_fst val fields) as Hfst.
    destruct (Dict.pop val fields) as [popped fields'] eqn:Hpop.
    simpl in Hfst. subst popped.
    intros (v' & Hv' & Hrest)%bind_Ok [Hkey Hnd]%NoDup_cons Hin Huniq Hget Hv.
    destruct (decide (val = a)) as [->|Hne].
    + assert (key = k) as -> by (apply Huniq; left).
      rewrite Hget in Hv'. simpl in Hv'. rewrite Hv in Hv'.
      injection Hv' as <-.
      rewrite (comprehension_get_other _ _ _ _ _ _ _ Hrest Hkey), get_set.
      by rewrite decide_True.
    + apply elem_of_cons in Hin as [[= -> ->]|Hin]; [done|].
      eapply IH; eauto.
      * intros k' Hk'. apply Huniq. by right.
      * replace fields' with (Dict.pop val fields).2 by by rewrite Hpop.
        by rewrite get_pop_ne.
Qed.



(** An entry that can be read neither way ends the comprehension with
    an [AttributeError], for that entry or for an earlier one. *)
Lemma comprehension_raises record items fields message k a :
  (k, a) ∈ items -> a ∉ Dict.keys fields -> hasattr record a = false ->
  exists a', comprehension record items fields message = Raise (AttributeError a')
             /\ a' ∈ items.*2 /\ hasattr record a' = false.
Proof.
  revert fields message.
  induction items as [|[key val] items IH]; intros fields message Hin Ha Hh.
  - by apply elem_of_nil in Hin.
  - simpl. pose proof (pop_fst val fields) as Hfst.
    pose proof (pop_snd_subseteq val fields) as Hsub.
    destruct (Dict.pop val fields) as [popped fields'].
    simpl in Hfst, Hsub. subst popped.
    destruct (if is_None (default VNone (Dict.get val fields))
              then getattr record val
              else Ok (default VNone (Dict.get val fields))) as [v|e] eqn:Hv.
    + simpl. apply elem_of_cons in Hin as [[= -> ->]|Hin].
      * apply get_None in Ha. rewrite Ha in Hv. simpl in Hv.
        unfold hasattr in Hh. by rewrite Hv in Hh.
      * destruct (IH fields' (Dict.set key v message) Hin) as (a' & -> & ? & ?);
          [|done|].
        -- intros ([k' v'] & -> & Hk')%list_elem_of_fmap.
           apply Ha, list_elem_of_fmap. exists (k', v'). split; [done|]. auto.
        -- exists a'. split_and!; [done| |done]. by right.
    + simpl. destruct (is_None _); [|done].
      apply getattr_Raise in Hv as [-> ?].
      exists val. split_and!; [done| |done]. left.
Qed.




End FormatterFacts.

(** ** Induction on values and documents *)

Section pyval_ind.
Variable P : pyval -> Prop.
Hypothesis HNone : P VNone.
Hypothesis HBool : forall b, P (VBool b).
Hypothesis HInt : forall z, P (VInt z).
Hypothesis HFloat : forall f, P (VFloat f).
Hypothesis HStr : forall s, P (VStr s).
Hypothesis HList : forall items, Forall P items -> P (VList items).
Hypothesis HTuple : forall items, Forall P items -> P (VTuple items).
Hypothesis HDict :
  forall items, Forall (fun kv => P kv.1 /\ P kv.2) items -> P (VDict items).
Hypothesis HTraceback : forall frames text, P (VTraceback frames text).
Hypothesis HObj : forall cls text, P (VObj cls text).

Lemma pyval_ind (o : pyval) : P o.
Proof.
  revert o. fix IH 1. intros [| | | | |items|items|items| |].
  - apply HNone.
  - apply HBool.
  - apply HInt.
  - apply HFloat.
  - apply HStr.
  - apply HList. induction items as [|x items IHitems]; constructor; auto.
  - apply HTuple. induction items as [|x items IHitems]; constructor; auto.
  - apply HDict.
    induction items as [|[k v] items IHitems]; constructor; auto.
  - apply HTraceback.
  - apply HObj.
Qed.
End pyval_ind.

Section json_ind.
Import Json.
Variable P : json -> Prop.
Hypothesis HNull : P JNull.
Hypothesis HBool : forall b, P (JBool b).
Hypothesis HInt : forall z, P (JInt z).
Hypothesis HFloat : forall f, P (JFloat f).
Hypothesis HStr : forall s, P (JStr s).
Hypothesis HArr : forall items, Forall P items -> P (JArr items).
Hypothesis HObj : forall items, Forall (fun kv => P kv.2) items -> P (JObj items).

Lemma json_ind (j : json) : P j.
Proof.
  revert j. fix IH 1. intros [| | | | |items|items].
  - apply HNull.
  - apply HBool.
  - apply HInt.
  - apply HFloat.
  - apply HStr.
  - apply HArr. induction items as [|x items IHitems]; constructor; auto.
  - apply HObj. induction items as [|[k v] items IHitems]; constructor; auto.
Qed.
End json_ind.

(** ** The text of a JSON document *)
Module JsonFacts.
Import Json.

(** *** Digits *)

Lemma scan_digits_cons c s d :
  digit_of c = Some d ->
  scan_digits (c :: s) = (d (scan_digits s).1, (scan_digits s).2).
Proof. simpl. intros ->. by destruct (scan_digits s). Qed.

Lemma scan_digits_stop rest :
  no_digit_head rest -> scan_digits rest = (Decimal.Nil, rest).
Proof. destruct rest; simpl; [done | by intros ->]. Qed.

Lemma scan_digits_digits u rest :
  no_digit_head rest -> scan_digits (digits u ++ rest) = (u, rest).
Proof.
  intros Hrest.
  induction u as [|u IH|u IH|u IH|u IH|u IH|u IH|u IH|u IH|u IH|u IH];
    [ by apply scan_digits_stop | .. ];
    match goal with
    | |- scan_digits (digits (?d u) ++ rest) = _ =>
        change (digits (d u) ++ rest)
          with (hd "0"%char (digits (d Decimal.Nil)) :: (digits u ++ rest));
        rewrite (scan_digits_cons _ _ d) by reflexivity; by rewrite IH
    end.
Qed.

Lemma digit_of_digits u : Forall (fun c => is_Some (digit_of c)) (digits u).
Proof.
  induction u as [|u IH|u IH|u IH|u IH|u IH|u IH|u IH|u IH|u IH|u IH];
    [ constructor | .. ];
    match goal with
    | |- Forall _ (digits (?d u)) =>
        change (digits (d u))
          with (hd "0"%char (digits (d Decimal.Nil)) :: digits u);
        constructor; [by eexists | done]
    end.
Qed.

Lemma nzhead_not_D0 u u' : Decimal.nzhead u ≠ Decimal.D0 u'.
Proof. induction u; simpl; done. Qed.

Lemma pos_to_uint_unorm p : Decimal.unorm (Pos.to_uint p) = Pos.to_uint p.
Proof.
  rewrite <- DecimalPos.Unsigned.to_of, DecimalPos.Unsigned.of_to. done.
Qed.

(** The decimal digits of a positive number do not start with [0]. *)
Lemma pos_to_uint_head p :
  exists c s, digits (Pos.to_uint p) = c :: s
              /\ c ≠ "0"%char /\ is_Some (digit_of c).
Proof.
  pose proof (pos_to_uint_unorm p) as Hn.
  pose proof (DecimalPos.Unsigned.to_uint_nonnil p) as Hnil.
  pose proof (DecimalPos.Unsigned.to_uint_nonzero p) as Hzero.
  destruct (Pos.to_uint p) as [|u|u|u|u|u|u|u|u|u|u] eqn:Hp; [done| |..].
  - exfalso. unfold Decimal.unorm in Hn. simpl in Hn.
    destruct (Decimal.nzhead u) eqn:Hu;
      try (by apply (nzhead_not_D0 u u); rewrite Hu, Hn).
    injection Hn as <-. by apply Hzero.
  - by exists "1"%char, (digits u); split_and!; [|  | eexists].
  - by exists "2"%char, (digits u); split_and!; [|  | eexists].
  - by exists "3"%char, (digits u); split_and!; [|  | eexists].
  - by exists "4"%char, (digits u); split_and!; [|  | eexists].
  - by exists "5"%char, (digits u); split_and!; [|  | eexists].
  - by exists "6"%char, (digits u); split_and!; [|  | eexists].
  - by exists "7"%char, (digits u); split_and!; [|  | eexists].
  - by exists "8"%char, (digits u); split_and!; [|  | eexists].
  - by exists "9"%char, (digits u); split_and!; [|  | eexists].
Qed.

Lemma scan_int_to_uint n rest :
  no_digit_head rest -> scan_int (digits (N.to_uint n) ++ rest) = Some (n, rest).
Proof.
  intros Hrest. destruct n as [|p]; [done|].
  change (N.to_uint (N.pos p)) with (Pos.to_uint p).
  pose proof (scan_digits_digits (Pos.to_uint p) rest Hrest) as Hscan.
  destruct (pos_to_uint_head p) as (c & s & Hcs & Hc0 & _).
  rewrite Hcs in Hscan |- *. unfold scan_int. cbn [app] in *.
  rewrite decide_False by done. rewrite Hscan.
  pose proof (DecimalPos.Unsigned.to_uint_nonnil p).
  rewrite <- (DecimalPos.Unsigned.of_to p).
  by destruct (Pos.to_uint p).
Qed.

Lemma to_uint_head n :
  exists c s, digits (N.to_uint n) = c :: s /\ is_Some (digit_of c).
Proof.
  destruct n as [|p].
  - by exists "0"%char, []; split; [|eexists].
  - destruct (pos_to_uint_head p) as (c & s & ? & _ & ?). by exists c, s.
Qed.

Lemma int_repr_eq z :
  int_repr z
  = (if (z <? 0)%Z then ["-"%char] else []) ++ digits (N.to_uint (Z.abs_N z)).
Proof.
  destruct z as [|p|p]; [done| |];
    pose proof (DecimalPos.Unsigned.to_uint_nonnil p);
    unfold int_repr, digits; simpl; by destruct (Pos.to_uint p).
Qed.

(** *** Numbers *)

Lemma delimited_no_digit rest : delimited rest -> no_digit_head rest.
Proof. destruct rest; [done|]. by intros [->|[->| ->]]. Qed.

Lemma scan_frac_delimited rest : delimited rest -> scan_frac rest = (None, rest).
Proof. destruct rest; [done|]. by intros [->|[->| ->]]. Qed.

Lemma scan_exp_delimited rest : delimited rest -> scan_exp rest = (None, rest).
Proof. destruct rest; [done|]. by intros [->|[->| ->]]. Qed.

Lemma scan_number_int z rest :
  delimited rest -> scan_number (int_repr z ++ rest) = Some (JInt z, rest).
Proof.
  intros Hrest. rewrite int_repr_eq. unfold scan_number.
  pose proof (scan_int_to_uint (Z.abs_N z) rest (delimited_no_digit _ Hrest))
    as Hint.
  destruct (Z.ltb_spec z 0).
  - cbn [app]. rewrite decide_True by done. rewrite Hint.
    rewrite scan_frac_delimited, scan_exp_delimited by done.
    repeat f_equal. rewrite N2Z.inj_abs_N. lia.
  - cbn [app]. destruct (to_uint_head (Z.abs_N z)) as (c & s & Hcs & Hc).
    rewrite Hcs in Hint |- *. cbn [app] in *.
    rewrite decide_False by (intros ->; by destruct Hc).
    rewrite Hint. rewrite scan_frac_delimited, scan_exp_delimited by done.
    repeat f_equal. rewrite N2Z.inj_abs_N. lia.
Qed.

Lemma scan_exp_exponent e rest :
  no_digit_head rest -> scan_exp (exponent e ++ rest) = (Some e, rest).
Proof.
  intros Hrest. unfold exponent, scan_exp. cbn [app bool_decide orb].
  set (n := Z.to_N (Z.abs e)).
  pose proof (scan_digits_digits (N.to_uint n) rest Hrest) as Hscan.
  pose proof (DecimalN.Unsigned.of_to n) as Hn.
  assert (N.to_uint n ≠ Decimal.Nil) as Hnil.
  { destruct n; [done|]. apply DecimalPos.Unsigned.to_uint_nonnil. }
  assert (forall neg,
    neg = bool_decide (e < 0)%Z ->
    match scan_digits (((if (n <? 10)%N then ["0"%char] else [])
                        ++ digits (N.to_uint n)) ++ rest) with
    | (Decimal.Nil, _) => (None, "e"%char :: (if neg then "-" else "+")%char
                                  :: ((if (n <? 10)%N then ["0"%char] else [])
                                      ++ digits (N.to_uint n)) ++ rest)
    | (u, r) => (Some (if neg then (- Z.of_N (N.of_uint u))%Z
                       else Z.of_N (N.of_uint u)), r)
    end = (Some e, rest)) as Hmain.
  { intros neg ->. destruct (n <? 10)%N.
    - cbn [app]. rewrite (scan_digits_cons _ _ Decimal.D0) by done.
      rewrite Hscan. cbn [fst snd].
      change (N.of_uint (Decimal.D0 (N.to_uint n))) with (N.of_uint (N.to_uint n)).
      rewrite Hn. repeat f_equal. unfold n. case_bool_decide; lia.
    - cbn [app]. rewrite Hscan.
      destruct (N.to_uint n) eqn:Hu; [done|..]; cbv beta iota; rewrite Hn;
        repeat f_equal; unfold n; case_bool_decide; lia. }
  destruct (Z.ltb_spec e 0).
  - rewrite decide_True by done. apply (Hmain true).
    by rewrite bool_decide_eq_true_2.
  - rewrite decide_False by done. rewrite decide_True by done.
    apply (Hmain false). by rewrite bool_decide_eq_false_2 by lia.
Qed.

Lemma scan_frac_digits fp s :
  fp ≠ Decimal.Nil -> no_digit_head s ->
  scan_frac ("."%char :: digits fp ++ s) = (Some fp, s).
Proof.
  intros Hfp Hs. unfold scan_frac. rewrite decide_True by done.
  rewrite scan_digits_digits by done. by destruct fp.
Qed.

Lemma scan_frac_exponent e s :
  scan_frac (exponent e ++ s) = (None, exponent e ++ s).
Proof. done. Qed.

Lemma no_digit_exponent e s : no_digit_head (exponent e ++ s).
Proof. done. Qed.

Lemma scan_float_tail fp ex rest :
  delimited rest ->
  no_digit_head (float_tail fp ex ++ rest)
  /\ exists fp' r,
       scan_frac (float_tail fp ex ++ rest) = (fp', r)
       /\ scan_exp r = (ex, rest)
       /\ (fp' = None -> ex = None -> False)
       /\ FDec false 0 (default Decimal.Nil fp') ex
          = float_norm (FDec false 0 fp ex).
Proof.
  intros Hrest. unfold float_tail.
  pose proof (delimited_no_digit _ Hrest) as Hnd.
  assert (forall e, no_digit_head (from_option exponent [] e ++ rest)) as Hnde
    by (by intros []).
  assert (forall e, scan_exp (from_option exponent [] e ++ rest) = (e, rest))
    as Hexp.
  { intros [e|]; simpl; [by apply scan_exp_exponent|].
    by apply scan_exp_delimited. }
  destruct fp as [|u|u|u|u|u|u|u|u|u|u];
    [ destruct ex as [e|]
    | cbv beta iota; rewrite <- app_assoc; cbn [app]; split; [done|];
      eexists _, _; split; [by apply scan_frac_digits|]; by rewrite Hexp .. ].
  - split; [done|]. exists None, (exponent e ++ rest).
    split_and!; [done| |done|done]. by apply scan_exp_exponent.
  - split; [done|]. exists (Some (Decimal.D0 Decimal.Nil)), rest.
    split_and!; [|by apply scan_exp_delimited|done|done].
    simpl. by rewrite scan_digits_stop.
Qed.

Lemma scan_number_float neg ip fp ex rest :
  delimited rest ->
  scan_number (floatstr (FDec neg ip fp ex) ++ rest)
  = Some (JFloat (float_norm (FDec neg ip fp ex)), rest).
Proof.
  intros Hrest. unfold floatstr. fold (float_tail fp ex).
  destruct (scan_float_tail fp ex rest Hrest)
    as (Hnd & fp' & r & Hfrac & Hexp & Hsome & Hnorm).
  pose proof (scan_int_to_uint ip _ Hnd) as Hint.
  assert (forall s : list ascii,
    scan_int s = Some (ip, float_tail fp ex ++ rest) ->
    match scan_int s with
    | None => None
    | Some (ip, r) =>
        let '(fp, r1) := scan_frac r in
        let '(ex, r2) := scan_exp r1 in
        match fp, ex with
        | None, None =>
            Some (JInt (if neg then (- Z.of_N ip)%Z else Z.of_N ip), r2)
        | _, _ => Some (JFloat (FDec neg ip (default Decimal.Nil fp) ex), r2)
        end
    end = Some (JFloat (float_norm (FDec neg ip fp ex)), rest)) as Hmain.
  { intros s ->. rewrite Hfrac, Hexp.
    assert (FDec neg ip (default Decimal.Nil fp') ex
            = float_norm (FDec neg ip fp ex)) as <-.
    { destruct fp, ex; simpl in *; congruence. }
    destruct fp', ex; try done. by destruct Hsome. }
  unfold scan_number. rewrite <- !app_assoc. destruct neg.
  - cbn [app]. rewrite decide_True by done. by apply Hmain.
  - cbn [app]. destruct (to_uint_head ip) as (c & s & Hcs & Hc).
    rewrite Hcs in Hint |- *. cbn [app] in *.
    rewrite decide_False by (intros ->; by destruct Hc).
    by apply Hmain.
Qed.

(** *** Strings *)

Lemma scan_string_escape c rest :
  scan_string Plain (escape c ++ rest)
  = '(str, r) ← scan_string Plain rest; Some (String c str, r).
Proof. destruct c as [[] [] [] [] [] [] [] []]; reflexivity. Qed.

Lemma scan_string_encode s rest :
  scan_string Plain (concat (escape <$> chars s) ++ quote :: rest)
  = Some (s, rest).
Proof.
  induction s as [|c s IH]; [done|].
  change (chars (String c s)) with (c :: chars s).
  rewrite fmap_cons. cbn [concat]. rewrite <- app_assoc.
  rewrite scan_string_escape, IH. done.
Qed.

Lemma printable_escape c : Forall printable (escape c).
Proof.
  destruct c as [[] [] [] [] [] [] [] []];
    apply (bool_decide_unpack _); vm_compute; exact I.
Qed.

Lemma printable_encode s : Forall printable (encode_basestring_ascii s).
Proof.
  unfold encode_basestring_ascii.
  apply Forall_cons. split; [by compute|].
  apply Forall_app. split; [|apply Forall_singleton; by compute].
  induction s as [|c s IH]; [constructor|].
  change (chars (String c s)) with (c :: chars s).
  rewrite fmap_cons. cbn [concat]. apply Forall_app.
  split; [apply printable_escape | done].
Qed.

(** *** Values *)

Lemma digit_not_ws c :
  is_Some (digit_of c) -> is_ws c = false /\ c ≠ "]"%char /\ c ≠ "-"%char.
Proof.
  intros [d Hd]. destruct c as [[] [] [] [] [] [] [] []]; try done.
Qed.

Lemma skip_ws_head c s : is_ws c = false -> skip_ws (c :: s) = c :: s.
Proof. simpl. by intros ->. Qed.

Lemma parse_value_number fuel t :
  number_head t -> parse_value (S fuel) t = scan_number t.
Proof.
  destruct t as [|c s]; [done|]. intros [[d Hd]|[-> Hs]].
  - destruct c as [[] [] [] [] [] [] [] []]; try done.
  - destruct s as [|c' s]; [done|]. destruct Hs as [d Hd].
    destruct c' as [[] [] [] [] [] [] [] []]; try done.
Qed.

Lemma number_head_int z rest : number_head (int_repr z ++ rest).
Proof.
  rewrite int_repr_eq.
  destruct (to_uint_head (Z.abs_N z)) as (c & s & -> & Hc).
  destruct (z <? 0)%Z; simpl; auto.
Qed.

Lemma number_head_float neg ip fp ex rest :
  number_head (floatstr (FDec neg ip fp ex) ++ rest).
Proof.
  unfold floatstr. destruct (to_uint_head ip) as (c & s & -> & Hc).
  destruct neg; simpl; auto.
Qed.

Lemma parse_value_quote fuel s :
  parse_value (S fuel) (quote :: s)
  = '(str, r) ← scan_string Plain s; Some (JStr str, r).
Proof. done. Qed.

Lemma parse_value_arr fuel s :
  parse_value (S fuel) ("["%char :: s)
  = match skip_ws s with
    | c' :: r =>
        if decide (c' = "]"%char) then Some (JArr [], r)
        else '(items, r') ← parse_elems fuel (c' :: r); Some (JArr items, r')
    | [] => None
    end.
Proof. done. Qed.

Lemma parse_value_obj fuel s :
  parse_value (S fuel) ("{"%char :: s)
  = match skip_ws s with
    | c' :: r =>
        if decide (c' = "}"%char) then Some (JObj [], r)
        else '(items, r') ← parse_members fuel (c' :: r); Some (JObj items, r')
    | [] => None
    end.
Proof. done. Qed.

Lemma parse_elems_S fuel s :
  parse_elems (S fuel) s
  = '(v, r) ← parse_value fuel s;
    match skip_ws r with
    | c :: r' =>
        if decide (c = ","%char) then
          '(vs, r'') ← parse_elems fuel (skip_ws r'); Some (v :: vs, r'')
        else if decide (c = "]"%char) then Some ([v], r')
        else None
    | [] => None
    end.
Proof. done. Qed.

Lemma parse_members_S fuel s :
  parse_members (S fuel) (quote :: s)
  = '(key, r) ← scan_string Plain s;
    match skip_ws r with
    | c1 :: r1 =>
        if decide (c1 = ":"%char) then
          '(v, r2) ← parse_value fuel (skip_ws r1);
          match skip_ws r2 with
          | c3 :: r3 =>
              if decide (c3 = ","%char) then
                '(kvs, r4) ← parse_members fuel (skip_ws r3);
                Some ((key, v) :: kvs, r4)
              else if decide (c3 = "}"%char) then Some ([(key, v)], r3)
              else None
          | [] => None
          end
        else None
    | [] => None
    end.
Proof. done. Qed.

(** The text of a document starts with a character that is neither
    white space nor a closing bracket. *)
Lemma print_head j :
  exists c s, print j = c :: s /\ is_ws c = false /\ c ≠ "]"%char.
Proof.
  destruct j as [|[]|z|[|[]|neg ip fp ex]|s|items|items];
    try (by eexists _, _; split_and!; [reflexivity|done|done]).
  - simpl. rewrite int_repr_eq.
    destruct (to_uint_head (Z.abs_N z)) as (c & s & -> & Hc).
    apply digit_not_ws in Hc as (? & ? & _).
    destruct (z <? 0)%Z; by eexists _, _.
  - simpl. destruct (to_uint_head ip) as (c & s & -> & Hc).
    apply digit_not_ws in Hc as (? & ? & _).
    destruct neg; by eexists _, _.
Qed.

(** *** Reading back what was written *)

Lemma join_cons_cons sep t t' ts :
  join sep (t :: t' :: ts) = t ++ sep ++ join sep (t' :: ts).
Proof. done. Qed.

Lemma skip_ws_join_print items rest :
  items ≠ [] ->
  skip_ws (join (chars ", ") (map print items) ++ rest)
  = join (chars ", ") (map print items) ++ rest.
Proof.
  destruct items as [|x items]; [done|]. intros _.
  destruct (print_head x) as (c & s & Hcs & Hws & _).
  destruct items; cbn [map]; rewrite ?join_cons_cons; cbn [join];
    rewrite Hcs; by apply skip_ws_head.
Qed.

Lemma parse_elems_print items :
  items ≠ [] -> Forall reads_back items ->
  forall fuel rest,
    sum_list (map (fun x => S (size x)) items) <= fuel ->
    parse_elems fuel (join (chars ", ") (map print items) ++ "]"%char :: rest)
    = Some (map jnorm items, rest).
Proof.
  induction items as [|x items IH]; [done|].
  intros _ [Hx Hitems]%Forall_cons fuel rest Hfuel.
  destruct fuel as [|fuel]; [simpl in Hfuel; lia|].
  rewrite parse_elems_S. destruct items as [|y items].
  - cbn [map join]. rewrite Hx; [|simpl in Hfuel; lia|simpl; auto]. done.
  - cbn [map]. rewrite join_cons_cons. rewrite <- !app_assoc.
    rewrite Hx; [|simpl in Hfuel; lia|simpl; auto].
    cbn [mbind option_bind chars list_ascii_of_string app].
    rewrite skip_ws_head by done. rewrite decide_True by done.
    change (skip_ws (" "%char :: ?s)) with (skip_ws s).
    change (print y :: map print items) with (map print (y :: items)).
    rewrite skip_ws_join_print by done.
    rewrite IH; [done|done|done|]. simpl in Hfuel |- *. lia.
Qed.

Lemma skip_ws_join_items items rest :
  items ≠ [] ->
  skip_ws (join (chars ", ") (map item_text items) ++ rest)
  = join (chars ", ") (map item_text items) ++ rest.
Proof.
  destruct items as [|x items]; [done|]. intros _.
  destruct items; cbn [map]; rewrite ?join_cons_cons; cbn [join]; done.
Qed.

Lemma join_items_head items rest :
  items ≠ [] ->
  exists s, join (chars ", ") (map item_text items) ++ rest = quote :: s.
Proof.
  destruct items as [|x items]; [done|]. intros _.
  destruct items; cbn [map]; rewrite ?join_cons_cons; cbn [join];
    by eexists.
Qed.

Lemma parse_members_print items :
  items ≠ [] -> Forall (fun kv => reads_back kv.2) items ->
  forall fuel rest,
    sum_list (map (fun kv => S (size kv.2)) items) <= fuel ->
    parse_members fuel
      (join (chars ", ") (map item_text items) ++ "}"%char :: rest)
    = Some (map (fun kv => (kv.1, jnorm kv.2)) items, rest).
Proof.
  induction items as [|[k v] items IH]; [done|].
  intros _ [Hx Hitems]%Forall_cons fuel rest Hfuel. simpl in Hx.
  destruct fuel as [|fuel]; [simpl in Hfuel; lia|].
  destruct (print_head v) as (c & s & Hcs & Hws & _).
  assert (forall R, delimited R ->
    parse_members (S fuel) (item_text (k, v) ++ R)
    = match skip_ws R with
      | c3 :: r3 =>
          if decide (c3 = ","%char) then
            '(kvs, r4) ← parse_members fuel (skip_ws r3);
            Some ((k, jnorm v) :: kvs, r4)
          else if decide (c3 = "}"%char) then Some ([(k, jnorm v)], r3)
          else None
      | [] => None
      end) as Hitem.
  { intros R HR. unfold item_text, encode_basestring_ascii. cbn [fst snd].
    rewrite <- !app_assoc. cbn [app]. rewrite parse_members_S.
    rewrite <- !app_assoc. cbn [app].
    rewrite scan_string_encode.
    cbn [mbind option_bind chars list_ascii_of_string app].
    rewrite skip_ws_head by done. rewrite decide_True by done.
    change (skip_ws (" "%char :: ?t)) with (skip_ws t).
    rewrite Hcs. cbn [app]. rewrite skip_ws_head by done.
    change (c :: s ++ R) with ((c :: s) ++ R). rewrite <- Hcs.
    rewrite Hx; [done|simpl in Hfuel; lia|done]. }
  destruct items as [|y items].
  - cbn [map join]. rewrite Hitem by (simpl; auto).
    rewrite skip_ws_head by done. done.
  - cbn [map]. rewrite join_cons_cons. rewrite <- !app_assoc.
    rewrite Hitem by (simpl; auto).
    cbn [chars list_ascii_of_string app].
    rewrite skip_ws_head by done. rewrite decide_True by done.
    change (skip_ws (" "%char :: ?t)) with (skip_ws t).
    change (item_text y :: map item_text items) with (map item_text (y :: items)).
    rewrite skip_ws_join_items by done.
    rewrite IH; [done|done|done|]. simpl in Hfuel |- *. lia.
Qed.

(** Reading the text of a document gives the document back. *)
Lemma parse_print j : reads_back j.
Proof.
  induction j as [|b|z|f|s|items IH|items IH] using json_ind;
    intros fuel rest Hfuel Hrest;
    (destruct fuel as [|fuel]; [simpl in Hfuel; lia|]).
  - done.
  - by destruct b.
  - cbn [print jnorm]. rewrite parse_value_number by apply number_head_int.
    by apply scan_number_int.
  - destruct f as [|[]|neg ip fp ex]; [done..|].
    cbn [print jnorm].
    rewrite parse_value_number by apply number_head_float.
    by apply scan_number_float.
  - cbn [print jnorm]. unfold encode_basestring_ascii.
    rewrite <- ?app_assoc. cbn [app]. rewrite parse_value_quote.
    rewrite <- ?app_assoc. cbn [app]. by rewrite scan_string_encode.
  - cbn [print jnorm]. cbn [app]. rewrite parse_value_arr.
    rewrite <- app_assoc. cbn [app]. destruct items as [|x items].
    + done.
    + rewrite skip_ws_join_print by done.
      destruct (print_head x) as (c & s & Hcs & Hws & Hc).
      assert (exists s', join (chars ", ") (map print (x :: items))
                         ++ "]"%char :: rest = c :: s') as [s' Hs'].
      { destruct items; cbn [map]; rewrite ?join_cons_cons; cbn [join];
          rewrite Hcs; by eexists. }
      rewrite Hs', decide_False by done. rewrite <- Hs'.
      rewrite parse_elems_print; [done|done|done|]. simpl in Hfuel |- *. lia.
  - cbn [print jnorm]. cbn [app]. rewrite parse_value_obj.
    rewrite <- app_assoc. cbn [app].
    change (fun kv : string * json =>
              encode_basestring_ascii kv.1 ++ chars ": " ++ print kv.2)
      with item_text.
    destruct items as [|x items].
    + done.
    + rewrite skip_ws_join_items by done.
      destruct (join_items_head (x :: items) ("}"%char :: rest)) as [s' Hs'];
        [done|].
      rewrite Hs', decide_False by done. rewrite <- Hs'.
      rewrite parse_members_print; [done|done|done|]. simpl in Hfuel |- *. lia.
Qed.

Lemma size_le_join {A} (f : A -> json) (text : A -> list ascii) items :
  Forall (fun x => size (f x) <= length (text x)) items ->
  sum_list (map (fun x => S (size (f x))) items)
  <= length (join (chars ", ") (map text items)) + 1.
Proof.
  induction items as [|x items IH]; [simpl; lia|].
  intros [Hx Hitems]%Forall_cons. specialize (IH Hitems).
  destruct items as [|y items].
  - simpl. lia.
  - cbn [map]. rewrite join_cons_cons, !length_app.
    cbn [map sum_list] in IH |- *. unfold id in *.
    change (length (chars ", ")) with 2. lia.
Qed.

Lemma size_le_length j : size j <= length (print j).
Proof.
  induction j as [|b|z|f|s|items IH|items IH] using json_ind.
  - simpl. lia.
  - destruct b; simpl; lia.
  - destruct (print_head (JInt z)) as (c & s & -> & _). simpl. lia.
  - destruct (print_head (JFloat f)) as (c & s & -> & _). simpl. lia.
  - simpl. lia.
  - cbn [size print]. rewrite length_cons, length_app. simpl length at 2.
    pose proof (size_le_join (fun x => x) print items IH). lia.
  - cbn [size print]. rewrite length_cons, length_app. simpl length at 2.
    assert (Forall (fun kv : string * json =>
                      size kv.2 <= length (item_text kv)) items) as IH'.
    { eapply Forall_impl; [exact IH|]. intros [k v] Hv.
      unfold item_text. rewrite !length_app. simpl in *. lia. }
    pose proof (size_le_join snd item_text items IH'). unfold item_text in *.
    lia.
Qed.

(** [loads] reads back the text of every document. *)
Lemma loads_print j : loads (string_of_list_ascii (print j)) = Some (jnorm j).
Proof.
  unfold loads, chars. rewrite list_ascii_of_string_of_list_ascii.
  destruct (print_head j) as (c & s & Hcs & Hws & _).
  assert (skip_ws (print j) = print j) as ->
    by (rewrite Hcs; by apply skip_ws_head).
  pose proof (parse_print j (S (length (print j))) []) as Hp.
  rewrite app_nil_r in Hp. rewrite Hp; [done| |done].
  pose proof (size_le_length j). lia.
Qed.

(** *** The characters written *)

Lemma printable_digit c : is_Some (digit_of c) -> printable c.
Proof.
  intros [d Hd].
  destruct c as [[] [] [] [] [] [] [] []]; try done;
    apply (bool_decide_unpack _); vm_compute; exact I.
Qed.

Lemma printable_digits u : Forall printable (digits u).
Proof. eapply Forall_impl; [apply digit_of_digits|]. apply printable_digit. Qed.

Lemma printable_chars_literal (s : string) :
  bool_decide (Forall printable (chars s)) = true -> Forall printable (chars s).
Proof. apply bool_decide_eq_true_1. Qed.

Lemma printable_int_repr z : Forall printable (int_repr z).
Proof.
  rewrite int_repr_eq. apply Forall_app. split; [|apply printable_digits].
  destruct (z <? 0)%Z; [|constructor].
  apply Forall_singleton. by compute.
Qed.

Lemma printable_floatstr f : Forall printable (floatstr f).
Proof.
  assert (forall s : string,
    bool_decide (Forall printable (chars s)) = true ->
    Forall printable (chars s)) as Hlit by apply printable_chars_literal.
  destruct f as [|[]|neg ip fp ex]; [by apply Hlit..|].
  unfold floatstr. rewrite !Forall_app. split_and!.
  - destruct neg; [by apply (Hlit "-")|constructor].
  - apply printable_digits.
  - destruct fp, ex;
      first [ by apply (Hlit ".0") | by constructor
            | apply (Forall_cons_2 _ "."%char);
              [by compute | apply printable_digits] ].
  - destruct ex as [e|]; [|constructor]. simpl. unfold exponent.
    apply Forall_cons. split; [by compute|].
    apply Forall_cons. split; [destruct (e <? 0)%Z; by compute|].
    apply Forall_app. split; [|apply printable_digits].
    destruct (_ <? 10)%N; [by apply (Hlit "0")|constructor].
Qed.

Lemma printable_join texts :
  Forall (Forall printable) texts ->
  Forall printable (join (chars ", ") texts).
Proof.
  induction texts as [|t texts IH]; [constructor|].
  intros [Ht Htexts]%Forall_cons. destruct texts as [|t' texts]; [done|].
  rewrite join_cons_cons, !Forall_app. split_and!; [done| |by apply IH].
  by apply printable_chars_literal.
Qed.

(** The text of a document is made of printable ASCII characters:
    it has no newline in it. *)
Lemma printable_print j : Forall printable (print j).
Proof.
  induction j as [|b|z|f|s|items IH|items IH] using json_ind.
  - by apply printable_chars_literal.
  - destruct b; by apply printable_chars_literal.
  - apply printable_int_repr.
  - apply printable_floatstr.
  - apply printable_encode.
  - cbn [print]. apply Forall_cons. split; [by compute|].
    apply Forall_app. split; [|apply Forall_singleton; by compute].
    apply printable_join. by apply Forall_fmap.
  - cbn [print]. apply Forall_cons. split; [by compute|].
    apply Forall_app. split; [|apply Forall_singleton; by compute].
    apply printable_join, Forall_fmap. eapply Forall_impl; [exact IH|].
    intros [k v] Hv. unfold compose. cbn [fst snd] in *.
    rewrite !Forall_app. split_and!.
    + apply printable_encode.
    + by apply printable_chars_literal.
    + done.
Qed.

(** *** What [json.dumps] makes of a value *)

Lemma mapM_Ok {A B} (f : A -> result B) l ys :
  mapM f l = Ok ys <-> Forall2 (fun x y => f x = Ok y) l ys.
Proof.
  revert ys. induction l as [|x l IH]; intros ys; simpl.
  - split; [intros [= <-]; constructor | by inversion 1].
  - split.
    + destruct (f x) as [y|e] eqn:Hy; [|done]. simpl.
      destruct (mapM f l) as [ys'|e] eqn:Hys; [|done]. simpl.
      intros [= <-]. constructor; [done | by apply IH].
    + inversion 1 as [|? y ? ys' Hy Hys]; subst. rewrite Hy. simpl.
      apply IH in Hys. by rewrite Hys.
Qed.


Lemma fmap_Ok {A B} (f : A -> B) (m : result A) b :
  f <$> m = Ok b <-> exists a, m = Ok a /\ b = f a.
Proof.
  destruct m as [a|e]; simpl; split; try done.
  - intros [= <-]. eauto.
  - by intros (? & [= <-] & ->).
  - by intros (? & ? & _).
Qed.

Lemma float_norm_idemp f : float_norm (float_norm f) = float_norm f.
Proof. by destruct f as [| |neg ip [] []]. Qed.

(** The documents [to_json] makes are written as they are read. *)
Lemma to_json_norm o : forall j, to_json o = Ok j -> jnorm j = j.
Proof.
  induction o as [|b|z|f|s|items IH|items IH|items IH|frames text|cls text]
    using pyval_ind; intros j; simpl; try (by intros [= <-]).
  - destruct (int_ok z); [by intros [= <-] | done].
  - intros [= <-]. simpl. by rewrite float_norm_idemp.
  - intros (js & Hjs%mapM_Ok & ->)%fmap_Ok. simpl. f_equal.
    induction Hjs as [|x y l ys Hxy _ IHl]; [done|].
    apply Forall_cons in IH as [Hx Hl]. simpl. f_equal; auto.
  - intros (js & Hjs%mapM_Ok & ->)%fmap_Ok. simpl. f_equal.
    induction Hjs as [|x y l ys Hxy _ IHl]; [done|].
    apply Forall_cons in IH as [Hx Hl]. simpl. f_equal; auto.
  - intros (js & Hjs%mapM_Ok & ->)%fmap_Ok. simpl. f_equal.
    induction Hjs as [|[k v] [k' j'] l ys Hxy _ IHl]; [done|].
    apply Forall_cons in IH as [[_ Hv] Hl]. simpl in *.
    destruct (key_text k) as [kt|]; [|done]. simpl in Hxy.
    destruct (to_json v) as [jv|] eqn:Hjv; [|done]. simpl in Hxy.
    injection Hxy as <- <-. f_equal; [|auto]. f_equal. auto.
Qed.


(** *** An item inside the text of an object *)

Lemma join_elem_of sep t texts :
  t ∈ texts -> exists pre post, join sep texts = pre ++ t ++ post.
Proof.
  induction texts as [|t0 texts IH]; [by intros ?%elem_of_nil|].
  intros [->|Hin]%elem_of_cons.
  - destruct texts as [|t1 texts].
    + exists [], []. by rewrite app_nil_r.
    + exists [], (sep ++ join sep (t1 :: texts)). done.
  - destruct (IH Hin) as (pre & post & Hj).
    destruct texts as [|t1 texts]; [by apply elem_of_nil in Hin|].
    rewrite join_cons_cons, Hj. exists (t0 ++ sep ++ pre), post.
    by rewrite <- !app_assoc.
Qed.

Lemma print_obj_item items kv :
  kv ∈ items ->
  exists pre post, print (JObj items) = pre ++ item_text kv ++ post.
Proof.
  intros Hin. cbn [print].
  destruct (join_elem_of (chars ", ") (item_text kv) (map item_text items))
    as (pre & post & Hj).
  { apply list_elem_of_fmap. eauto. }
  unfold item_text in *. rewrite Hj.
  exists ("{"%char :: pre), (post ++ ["}"%char]). by rewrite <- !app_assoc.
Qed.
End JsonFacts.

(** ** The line [format] returns *)

Section FormatFacts.
Context `{PyLib}.
Import Json JsonFacts DictFacts.

Lemma to_json_message (message : dict) j :
  to_json (VDict (prod_map VStr id <$> message)) = Ok j <->
  exists items, j = JObj items /\ encoded message items.
Proof.
  cbn [to_json]. unfold encoded. split.
  - intros (items & Hitems & ->)%fmap_Ok. exists items. split; [done|].
    apply mapM_Ok in Hitems. apply Forall2_fmap_l in Hitems.
    eapply Forall2_impl; [exact Hitems|]. intros [k v] [k' j'] Hkv.
    simpl in *. destruct (to_json v); [|done]. by injection Hkv as <- <-.
  - intros (items & -> & Hitems). apply fmap_Ok. exists items.
    split; [|done]. apply mapM_Ok, Forall2_fmap_l.
    eapply Forall2_impl; [exact Hitems|]. intros [k v] [k' j'] [Hk Hv].
    simpl in *. rewrite Hv. by subst.
Qed.

Lemma format_Ok self record text :
  format self record = Ok text <->
  exists message items,
    _prepare_log_dict self record = Ok message /\
    encoded message items /\
    text = string_of_list_ascii (print (JObj items)).
Proof.
  unfold format, dumps. rewrite bind_Ok. split.
  - intros (message & Hm & (j & (items & -> & He)%to_json_message
                           & [= <-])%bind_Ok).
    by exists message, items.
  - intros (message & items & Hm & He & ->). exists message. split; [done|].
    apply bind_Ok. exists (JObj items). split; [|done].
    apply to_json_message. eauto.
Qed.

Lemma encoded_keys message items :
  encoded message items -> items.*1 = Dict.keys message.
Proof.
  unfold Dict.keys. induction 1 as [|[k v] [k' j] ? ? [Hk _] _ IH]; [done|].
  rewrite !fmap_cons, IH. simpl in *. by rewrite Hk.
Qed.

Lemma encoded_get message items k :
  encoded message items ->
  match Dict.get k message with
  | Some v => exists j, to_json v = Ok j /\ Dict.get k items = Some j
  | None => Dict.get k items = None
  end.
Proof.
  induction 1 as [|[k0 v] [k' j] ? ? [Hk Hv] _ IH]; [done|].
  simpl in *. subst k'. case_decide; [eauto | done].
Qed.

Lemma encoded_norm message items :
  encoded message items -> jnorm (JObj items) = JObj items.
Proof.
  intros He. simpl. f_equal.
  induction He as [|[k v] [k' j] ? ? [Hk Hv] _ IH]; [done|].
  simpl in *. rewrite IH. by rewrite (to_json_norm _ _ Hv).
Qed.

(** The line is the text of a JSON object that holds the keys of the
    mapping in their order, each with the document of its value; it
    reads back as that object, and every character of it is a
    printable ASCII character. *)
Lemma format_loads self record text :
  format self record = Ok text ->
  exists message items,
    _prepare_log_dict self record = Ok message /\
    encoded message items /\
    text = string_of_list_ascii (print (JObj items)) /\
    loads text = Some (JObj items) /\
    Forall printable (chars text).
Proof.
  intros (message & items & Hm & He & ->)%format_Ok.
  exists message, items. split_and!; [done..| |].
  - by rewrite loads_print, (encoded_norm message).
  - unfold chars. rewrite list_ascii_of_string_of_list_ascii.
    apply printable_print.
Qed.
End FormatFacts.

(** * The properties of the specification *)

Section Claims.
Context `{PyLib}.
Import Json JsonFacts DictFacts.

Lemma keys_always_fields record fields :
  always_fields record = Ok fields ->
  exists exc_info stack_info,
    getattr record "exc_info" = Ok exc_info /\
    getattr record "stack_info" = Ok stack_info /\
    Dict.keys fields = derived_names exc_info stack_info.
Proof.
  intros (? & ? & ? & exc_info & stack_info & exc & stack & Hrest)
    %always_fields_Ok.
  destruct Hrest as (_ & _ & _ & He & Hexc & Hs & Hstack & ->).
  exists exc_info, stack_info. split_and!; [done..|].
  unfold formatted, derived_names in *.
  destruct (is_None exc_info), (is_None stack_info);
    repeat match goal with
           | Hx : exists _, _ |- _ => destruct Hx as (? & _ & ->)
           | Hx : _ = None |- _ => rewrite Hx
           end; done.
Qed.

Lemma keys_leftover self fields :
  Dict.keys (leftover self fields)
  = filter (fun k => k ∉ (fmt_keys self).*2) (Dict.keys fields).
Proof. apply (keys_filter (fun k => k ∉ (fmt_keys self).*2)). Qed.


Lemma x_not_builtin : "x" ∉ LOG_RECORD_BUILTIN_ATTRS.
Proof. by apply (bool_decide_unpack _). Qed.

(** C2: every extra field of the record is in the JSON object under
    its own key, with the document of its value; for the extra field
    ["x": "hello"] the object holds the string [hello] under [x], the
    line contains the item as text, and [x] is not one of the
    built-in attribute names. *)
Theorem extras_in_output self record text :
  wf_record record ->
  format self record = Ok text ->
  exists items,
    loads text = Some (JObj items) /\
    (forall k v, (k, v) ∈ extra_fields record ->
       exists j, to_json v = Ok j /\ Dict.get k items = Some j) /\
    (Dict.get "x" (__dict__ record) = Some (VStr "hello") ->
       Dict.get "x" items = Some (JStr "hello") /\
       exists pre post,
         chars text
         = pre ++ [quote; "x"; quote; ":"; " "; quote;
                   "h"; "e"; "l"; "l"; "o"; quote]%char ++ post) /\
    "x" ∉ LOG_RECORD_BUILTIN_ATTRS.
Proof.
  intros Hwf (message & items & Hm & He & -> & Hl & _)%format_loads.
  assert (forall k v, (k, v) ∈ extra_fields record ->
            exists j, to_json v = Ok j /\ Dict.get k items = Some j) as Hextra.
  { intros k v Hin. pose proof (prepare_get_extra _ _ _ _ _ Hwf Hm Hin) as Hg.
    pose proof (encoded_get _ _ k He) as Hk. by rewrite Hg in Hk. }
  exists items. split_and!; [done|done| |apply x_not_builtin].
  intros Hx%get_Some_elem_of.
  destruct (Hextra "x" (VStr "hello")) as (j & [= <-] & Hj).
  { apply list_elem_of_filter. split; [apply x_not_builtin | done]. }
  split; [done|]. unfold chars. rewrite list_ascii_of_string_of_list_ascii.
  apply (print_obj_item items ("x", JStr "hello")).
  by apply get_Some_elem_of.
Qed.

(** C3: when an entry of the format spec names a source attribute
    that is neither [message] nor [timestamp] and that the record
    does not have, [format] raises an exception and returns no line;
    if the derived fields could be computed, the exception is the
    [AttributeError] for a source attribute of the format spec that
    the record does not have. *)
Theorem unknown_source_attribute self record key val :
  (key, val) ∈ fmt_keys self ->
  val ≠ "message" -> val ≠ "timestamp" ->
  hasattr record val = false ->
  raises (format self record)
  /\ (forall fields, always_fields record = Ok fields ->
        exists attr, format self record = Raise (AttributeError attr)
                     /\ attr ∈ (fmt_keys self).*2
                     /\ hasattr record attr = false).
Proof.
  intros Hin Hm Ht Hh.
  assert (forall fields, always_fields record = Ok fields ->
            exists attr, format self record = Raise (AttributeError attr)
                         /\ attr ∈ (fmt_keys self).*2
                         /\ hasattr record attr = false) as Hmain.
  { intros fields Hf.
    destruct (keys_always_fields _ _ Hf) as (ei & si & Hei & Hsi & Hkeys).
    destruct (comprehension_raises record (fmt_keys self) fields [] key val)
      as (attr & Hc & ? & ?); [done| |done|].
    - rewrite Hkeys. unfold derived_names, hasattr in *.
      rewrite !elem_of_app, !elem_of_cons, elem_of_nil.
      intros [[?|[?|[]]]|[Hval|Hval]]; try done.
      + destruct (is_None ei); [by apply elem_of_nil in Hval|].
        apply list_elem_of_singleton in Hval as ->. by rewrite Hei in Hh.
      + destruct (is_None si); [by apply elem_of_nil in Hval|].
        apply list_elem_of_singleton in Hval as ->. by rewrite Hsi in Hh.
    - exists attr. split; [|done].
      unfold format, _prepare_log_dict. rewrite Hf. simpl. by rewrite Hc. }
  split; [|done].
  destruct (always_fields record) as [fields|e] eqn:Hf.
  - destruct (Hmain fields eq_refl) as (attr & -> & _). by eexists.
  - unfold format, _prepare_log_dict. rewrite Hf. by eexists.
Qed.

(** C4: the keys of the JSON object stand in the order of their
    first assignment: the output keys of the format spec in its
    order, then the derived fields that no entry of the format spec
    reads ([message], [timestamp], then [exc_info] and [stack_info]
    when the record has them), then the extra fields in the order of
    the record's attributes; when no key comes twice in these three
    lists, the keys of the object are the three lists one after the
    other. *)
Theorem key_insertion_order self record text :
  format self record = Ok text ->
  exists exc_info stack_info items,
    getattr record "exc_info" = Ok exc_info /\
    getattr record "stack_info" = Ok stack_info /\
    loads text = Some (JObj items) /\
    let order := (fmt_keys self).*1
                 ++ filter (fun k => k ∉ (fmt_keys self).*2)
                      (derived_names exc_info stack_info)
                 ++ Dict.keys (extra_fields record) in
    items.*1 = merge [] order /\ (NoDup order -> items.*1 = order).
Proof.
  intros (message & items & Hm & He & _ & Hl & _)%format_loads.
  destruct (prepare_keys _ _ _ Hm) as (fields & Hf & Hkeys).
  destruct (keys_always_fields _ _ Hf) as (exc_info & stack_info & ? & ? & Hd).
  exists exc_info, stack_info, items. split_and!; [done..|]. simpl.
  rewrite (encoded_keys _ _ He), Hkeys, keys_leftover, Hd. split; [done|].
  intros Hnd. by rewrite merge_NoDup.
Qed.

(** C5: [NonErrorFilter.filter] answers for a record of severity [z]
    whether [z <= INFO]: [True] for [DEBUG] and [INFO], [False] for
    [WARNING], [ERROR] and [CRITICAL]; it is a function of the record
    that reads nothing but the severity, so that two records of the
    same severity get the same answer. *)
Theorem filter_accepts_up_to_INFO record z :
  getattr record "levelno" = Ok (VInt z) ->
  NonErrorFilter.filter record = Ok (bool_decide (z <= INFO)%Z)
  /\ (z = DEBUG \/ z = INFO -> NonErrorFilter.filter record = Ok true)
  /\ (z = WARNING \/ z = ERROR \/ z = CRITICAL ->
      NonErrorFilter.filter record = Ok false)
  /\ (forall record', getattr record' "levelno" = Ok (VInt z) ->
        NonErrorFilter.filter record' = NonErrorFilter.filter record).
Proof.
  intros Hz.
  assert (forall r, getattr r "levelno" = Ok (VInt z) ->
            NonErrorFilter.filter r = Ok (bool_decide (z <= INFO)%Z)) as Hf.
  { intros r Hr. unfold NonErrorFilter.filter. rewrite Hr. simpl.
    f_equal. by destruct (Z.leb_spec z INFO); case_bool_decide; try lia. }
  split_and!.
  - by apply Hf.
  - intros [-> | ->]; by rewrite Hf.
  - intros [-> | [-> | ->]]; by rewrite Hf.
  - intros r Hr. by rewrite !Hf.
Qed.


Lemma newline_not_printable (s : list ascii) :
  Forall printable s -> ("010"%char ∉ s).
Proof.
  rewrite Forall_forall. intros Hs Hin. by destruct (Hs _ Hin).
Qed.


(** A derived field that the format spec does not rename, and whose
    name is a built-in attribute name, is in the mapping under its
    name. *)
Lemma derived_field_kept self record fields built a v :
  always_fields record = Ok fields ->
  comprehension record (fmt_keys self) fields []
    = Ok (built, leftover self fields) ->
  NoDup (fmt_keys self).*1 ->
  (forall k, (k, a) ∈ fmt_keys self -> k = a) ->
  a ∈ LOG_RECORD_BUILTIN_ATTRS ->
  Dict.get a fields = Some v -> is_None v = false ->
  Dict.get a (Dict.update (Dict.update built (leftover self fields))
                          (extra_fields record)) = Some v.
Proof.
  intros Hf Hc Hnd Ha Hb Hv Hnone.
  rewrite get_update_notin.
  2:{ unfold extra_fields, Dict.keys.
      intros ([k w] & -> & [Hk _]%list_elem_of_filter)%list_elem_of_fmap.
      by apply Hk. }
  rewrite get_update by by eapply NoDup_leftover.
  unfold leftover.
  rewrite (get_filter (fun k => k ∉ (fmt_keys self).*2)).
  case_decide as Hsrc; [by rewrite Hv|]. simpl.
  apply list_elem_of_fmap in Hsrc as ([k a'] & -> & Hin). simpl in *.
  assert (k = a') as -> by by apply Ha.
  eapply comprehension_get; eauto.
Qed.


(** C9, as amended: every line [format] returns reads back as a JSON
    object, never as an array or a scalar; the object holds [message]
    and [timestamp] each under its own name when no entry of the
    format spec reads it, and under every output key of an entry that
    reads it. *)
Theorem line_is_object self record line :
  format self record = Ok line ->
  exists items,
    loads line = Some (JObj items) /\
    forall a, a = "message" \/ a = "timestamp" ->
      (a ∉ (fmt_keys self).*2 -> a ∈ items.*1)
      /\ (forall k, (k, a) ∈ fmt_keys self -> k ∈ items.*1).
Proof.
  intros (message & items & Hm & He & _ & Hl & _)%format_loads.
  destruct (prepare_keys _ _ _ Hm) as (fields & Hf & Hkeys).
  destruct (keys_always_fields _ _ Hf) as (ei & si & _ & _ & Hd).
  exists items. split; [done|]. intros a Ha.
  rewrite (encoded_keys _ _ He), Hkeys. split.
  - intros Hsrc. apply elem_of_merge. right.
    rewrite !elem_of_app. right. left.
    rewrite keys_leftover. apply list_elem_of_filter. split; [done|].
    rewrite Hd. unfold derived_names.
    destruct Ha as [-> | ->]; set_solver.
  - intros k Hk. apply elem_of_merge. right.
    rewrite !elem_of_app. left. apply list_elem_of_fmap. by exists (k, a).
Qed.

(** C10: when an extra field of the record has the name of an output
    key of the format spec, or the name of a derived field, the JSON
    object holds the document of the extra field's value under that
    key, and no second item under it: the value assigned there
    before is gone. *)
Theorem extra_overrides self record line k v :
  wf_record record ->
  format self record = Ok line ->
  (k, v) ∈ extra_fields record ->
  k ∈ (fmt_keys self).*1
  \/ k ∈ ["message"; "timestamp"; "exc_info"; "stack_info"] ->
  exists items j,
    loads line = Some (JObj items) /\
    to_json v = Ok j /\
    Dict.get k items = Some j /\
    NoDup items.*1.
Proof.
  intros Hwf (message & items & Hm & He & _ & Hl & _)%format_loads Hin _.
  pose proof (prepare_get_extra _ _ _ _ _ Hwf Hm Hin) as Hg.
  pose proof (encoded_get _ _ k He) as Hk. rewrite Hg in Hk.
  destruct Hk as (j & Hj & Hgj). exists items, j.
  split_and!; [done..|].
  rewrite (encoded_keys _ _ He). by eapply NoDup_prepare.
Qed.
End Claims.

(** * The properties on the examples *)

Section OnExamples.
Import Json CPython Examples.


Lemma extras_in_output_witness :
  wf_record hello_record
  /\ @format info_lib default_spec hello_record = Ok hello_line
  /\ exists items,
       loads hello_line = Some (JObj items) /\
       (forall k v, (k, v) ∈ extra_fields hello_record ->
          exists j, to_json v = Ok j /\ Dict.get k items = Some j) /\
       (Dict.get "x" (__dict__ hello_record) = Some (VStr "hello") ->
          Dict.get "x" items = Some (JStr "hello") /\
          exists pre post,
            chars hello_line
            = pre ++ [quote; "x"; quote; ":"; " "; quote;
                      "h"; "e"; "l"; "l"; "o"; quote]%char ++ post) /\
       "x" ∉ LOG_RECORD_BUILTIN_ATTRS.
Proof.
  split; [decided|]. split; [run|].
  apply (@extras_in_output info_lib default_spec hello_record hello_line);
    [decided | run].
Defined.

Lemma unknown_source_attribute_witness :
  ("timestamp", "time") ∈ fmt_keys docstring_spec
  /\ "time" ≠ "message" /\ "time" ≠ "timestamp"
  /\ @hasattr info_lib info_record "time" = false
  /\ raises (@format info_lib docstring_spec info_record)
  /\ (forall fields, @always_fields info_lib info_record = Ok fields ->
        exists attr,
          @format info_lib docstring_spec info_record
          = Raise (AttributeError attr)
          /\ attr ∈ (fmt_keys docstring_spec).*2
          /\ @hasattr info_lib info_record attr = false).
Proof.
  assert (("timestamp", "time") ∈ fmt_keys docstring_spec) as Hin
    by (right; left).
  split_and!; [done|done|done|run|..];
    apply (@unknown_source_attribute info_lib docstring_spec info_record
             "timestamp" "time" Hin); (done || run).
Defined.

Lemma key_insertion_order_witness :
  @format info_lib default_spec level_record = Ok level_line
  /\ exists exc_info stack_info items,
       @getattr info_lib level_record "exc_info" = Ok exc_info /\
       @getattr info_lib level_record "stack_info" = Ok stack_info /\
       loads level_line = Some (JObj items) /\
       let order := (fmt_keys default_spec).*1
                    ++ filter (fun k => k ∉ (fmt_keys default_spec).*2)
                         (derived_names exc_info stack_info)
                    ++ Dict.keys (extra_fields level_record) in
       items.*1 = merge [] order /\ (NoDup order -> items.*1 = order).
Proof.
  split; [run|].
  apply (@key_insertion_order info_lib default_spec level_record level_line).
  run.
Defined.

Lemma filter_accepts_up_to_INFO_witness :
  @getattr info_lib info_record "levelno" = Ok (VInt INFO)
  /\ @NonErrorFilter.filter info_lib info_record
     = Ok (bool_decide (INFO <= INFO)%Z)
  /\ (INFO = DEBUG \/ INFO = INFO ->
      @NonErrorFilter.filter info_lib info_record = Ok true)
  /\ (INFO = WARNING \/ INFO = ERROR \/ INFO = CRITICAL ->
      @NonErrorFilter.filter info_lib info_record = Ok false)
  /\ (forall record', @getattr info_lib record' "levelno" = Ok (VInt INFO) ->
        @NonErrorFilter.filter info_lib record'
        = @NonErrorFilter.filter info_lib info_record).
Proof.
  split; [run|].
  apply (@filter_accepts_up_to_INFO info_lib info_record INFO). run.
Defined.



(** C7: on a record that carries stack info, [_prepare_log_dict]
    passes the stack text to [formatException], which takes its
    argument for the triple of an exception and fails on a string:
    no [stack_info] field is added, no line is written, whatever the
    format spec. *)
Theorem stack_info_formatting_raises self :
  @getattr info_lib stack_record "exc_info" = Ok VNone
  /\ (exists s, @getattr info_lib stack_record "stack_info" = Ok (VStr s))
  /\ @_prepare_log_dict info_lib self stack_record
     = Raise (AttributeError "tb_frame")
  /\ @format info_lib self stack_record = Raise (AttributeError "tb_frame").
Proof.
  split; [run|]. split; [eexists; run|].
  assert (@always_fields info_lib stack_record
          = Raise (AttributeError "tb_frame")) as Hf by run.
  unfold format, _prepare_log_dict. by rewrite Hf.
Qed.



(** C9 as stated fails: with a format spec that gives [message] the
    output key [msg], the line reads back as an object that has no
    key [message]. *)
Lemma line_is_object_counterexample :
  @format info_lib renaming_spec info_record = Ok renamed_line
  /\ loads renamed_line
     = Some (JObj [("msg", JStr "info"); ("timestamp", JStr timestamp)])
  /\ "message" ∉ ["msg"; "timestamp"].
Proof. split_and!; [run|run|]. by apply (bool_decide_unpack _). Qed.

Lemma line_is_object_witness :
  @format info_lib renaming_spec info_record = Ok renamed_line
  /\ exists items,
       loads renamed_line = Some (JObj items) /\
       forall a, a = "message" \/ a = "timestamp" ->
         (a ∉ (fmt_keys renaming_spec).*2 -> a ∈ items.*1)
         /\ (forall k, (k, a) ∈ fmt_keys renaming_spec -> k ∈ items.*1).
Proof.
  split; [run|].
  apply (@line_is_object info_lib renaming_spec info_record renamed_line).
  run.
Defined.

Lemma extra_overrides_witness :
  wf_record level_record
  /\ @format info_lib default_spec level_record = Ok level_line
  /\ ("level", VInt 5) ∈ extra_fields level_record
  /\ "level" ∈ (fmt_keys default_spec).*1
  /\ exists items j,
       loads level_line = Some (JObj items) /\
       to_json (VInt 5) = Ok j /\
       Dict.get "level" items = Some j /\
       NoDup items.*1.
Proof.
  assert (("level", VInt 5) ∈ extra_fields level_record) as Hin
    by (vm_compute; left).
  assert ("level" ∈ (fmt_keys default_spec).*1) as Hk by (vm_compute; left).
  split; [decided|]. split; [run|]. split; [done|]. split; [done|].
  apply (@extra_overrides info_lib default_spec level_record level_line
           "level" (VInt 5)); [decided|run|done|by left].
Defined.
End OnExamples.

(** * Setting up logging *)

(** ** Paths *)
Module PathFacts.
Import Path.

Lemma append_cons c s t : String c s +:+ t = String c (s +:+ t).
Proof. reflexivity. Qed.

Lemma append_assoc s t u : (s +:+ t) +:+ u = s +:+ t +:+ u.
Proof.
  induction s as [|c s IH]; [done|]. by rewrite !append_cons, IH.
Qed.

Lemma append_empty s t : s +:+ t = EmptyString -> t = EmptyString.
Proof. by destruct s. Qed.

Lemma concat_cons_snoc sep h l x :
  String.concat sep (h :: l ++ [x])
  = h +:+ sep +:+ String.concat sep (l ++ [x]).
Proof. by destruct l. Qed.

Lemma concat_snoc sep l x y :
  String.concat sep ((l ++ [x]) ++ [y])
  = String.concat sep (l ++ [x]) +:+ sep +:+ y.
Proof.
  induction l as [|h l IH]; [done|].
  rewrite <- !app_comm_cons. rewrite concat_cons_snoc, IH, concat_cons_snoc.
  by rewrite !append_assoc.
Qed.

Lemma concat_snoc_empty l x :
  String.concat "/" (l ++ [x]) = EmptyString -> x = EmptyString.
Proof.
  destruct l as [|h l]; [done|].
  rewrite <- app_comm_cons, concat_cons_snoc. by intros ?%append_empty.
Qed.

(** The text of a path that ends with a component [x] that is not
    empty. *)
Lemma str_snoc r l x :
  x ≠ EmptyString ->
  str (mk r (l ++ [x])) = r +:+ String.concat "/" (l ++ [x]).
Proof.
  intros Hx. unfold str. simpl. case_decide as He; [|done].
  by apply append_empty, concat_snoc_empty in He.
Qed.

Lemma parent_snoc r l x : parent (mk r (l ++ [x])) = mk r l.
Proof.
  unfold parent. simpl. rewrite removelast_last.
  by destruct l.
Qed.

Lemma name_snoc r l x : name (mk r (l ++ [x])) = x.
Proof. unfold name. simpl. by rewrite last_snoc. Qed.

(** [p / s] for the three texts of [setup_logging] *)
Lemma truediv_logs p : truediv p "logs" = mk (root p) (parts p ++ ["logs"]).
Proof. reflexivity. Qed.

Lemma truediv_Logs p :
  truediv p "Logs.log.jsonl" = mk (root p) (parts p ++ ["Logs.log.jsonl"]).
Proof. reflexivity. Qed.

Lemma truediv_config p :
  truediv p "logging_configs/logging_config.json"
  = mk (root p) ((parts p ++ ["logging_configs"]) ++ ["logging_config.json"]).
Proof. unfold truediv. simpl. by rewrite <- app_assoc. Qed.
End PathFacts.

(** ** The configuration *)
Module ItemFacts.
Import Item.

Lemma lookup_store k v items : lookup k (store k v items) = Some v.
Proof.
  induction items as [|[k' v'] items IH]; simpl; [by rewrite decide_True|].
  destruct k'; simpl; try done.
  case_decide; simpl; [by rewrite decide_True | by rewrite decide_False].
Qed.

Lemma lookup_store_ne k k' v items :
  k ≠ k' -> lookup k' (store k v items) = lookup k' items.
Proof.
  intros Hne. induction items as [|[k0 v0] items IH]; simpl.
  - by rewrite decide_False.
  - destruct k0; simpl; try done.
    case_decide; simpl; [subst; by rewrite !decide_False|].
    by rewrite IH.
Qed.

Lemma store_store k v w items :
  store k v (store k w items) = store k v items.
Proof.
  induction items as [|[k0 v0] items IH]; simpl; [by rewrite decide_True|].
  destruct k0; simpl; try by rewrite IH.
  case_decide; simpl; [by rewrite decide_True|].
  by rewrite decide_False, IH.
Qed.

(** Assigning to a key leaves the keys where they stand; a new key
    goes to the end. *)
Lemma keys_store k v items :
  (store k v items).*1
  = match lookup k items with
    | Some _ => items.*1
    | None => items.*1 ++ [VStr k]
    end.
Proof.
  induction items as [|[k0 v0] items IH]; [done|].
  destruct k0; cbn [store lookup]; try case_decide; subst;
    rewrite ?fmap_cons, ?IH; try done; by destruct (lookup k items).
Qed.
End ItemFacts.

(** ** [setup_logging] *)

Section SetupFacts.
Context `{Setup.System}.
Import Item ItemFacts Setup PathFacts.

(** The configuration after lines 175-176: as it was, when it has no
    member [handlers] or its [handlers] have no member [file_json];
    with the file name assigned in place, when a dictionary holds a
    dictionary [handlers] that holds a dictionary [file_json]. *)
Lemma set_filename_Ok config p config' :
  set_filename config p = Ok config' <->
  (config' = config
   /\ (contains "handlers" config = Ok false
       \/ exists h, getitem config "handlers" = Ok h
                    /\ contains "file_json" h = Ok false))
  \/ exists c h f,
       config = VDict c /\ lookup "handlers" c = Some (VDict h) /\
       lookup "file_json" h = Some (VDict f) /\
       config'
       = VDict (store "handlers"
                  (VDict (store "file_json"
                            (VDict (store "filename" (VStr p) f)) h)) c).
Proof.
  unfold set_filename. split.
  - destruct (contains "handlers" config) as [[]|e] eqn:Hc; simpl; [| |done].
    2:{ intros [= <-]. left. eauto. }
    destruct (getitem config "handlers") as [hs|e] eqn:Hh; simpl; [|done].
    destruct (contains "file_json" hs) as [[]|e] eqn:Hf; simpl; [| |done].
    2:{ intros [= <-]. left. eauto. }
    destruct config as [| | | | | | |c| |]; try done. simpl in Hh.
    destruct (lookup "handlers" c) as [hs'|] eqn:Hl; [|done].
    injection Hh as ->.
    destruct hs as [| | | | | | |h| |]; try done. simpl.
    destruct (lookup "file_json" h) as [fj|] eqn:Hl'; [|done]. simpl.
    destruct fj as [| | | | | | |f| |]; try done. simpl.
    intros [= <-]. right. by exists c, h, f.
  - intros [[-> [Hc|(h & Hh & Hf)]]|(c & h & f & -> & Hh & Hf & ->)].
    + by rewrite Hc.
    + destruct (contains "handlers" config) as [[]|e] eqn:Hc; simpl.
      * by rewrite Hh; simpl; rewrite Hf.
      * done.
      * destruct config; try done; simpl in *; by destruct (lookup _ _).
    + simpl. rewrite Hh. simpl. by rewrite Hf.
Qed.

(** What [setup_logging] does, step by step. *)
Lemma setup_logging_run __file__ :
  setup_logging __file__
  = match mkdir (log_dir __file__) with
    | Raise e => ([Mkdir (log_dir __file__)], Raise e)
    | Ok _ =>
        match load (config_file __file__) with
        | Raise e =>
            ([Mkdir (log_dir __file__); Load (config_file __file__)], Raise e)
        | Ok config =>
            match set_filename config (Path.str (log_file __file__)) with
            | Raise e =>
                ([Mkdir (log_dir __file__); Load (config_file __file__)],
                 Raise e)
            | Ok config =>
                ([Mkdir (log_dir __file__); Load (config_file __file__);
                  DictConfig config], dictConfig config)
            end
        end
    end.
Proof.
  unfold setup_logging, perform, pure, mbind, io_bind. simpl.
  destruct (mkdir _); [|done]. simpl.
  destruct (load _); [|done]. simpl.
  by destruct (set_filename _ _).
Qed.
End SetupFacts.

Section SetupProperties.
Context `{Setup.System}.
Import Item ItemFacts Setup PathFacts.

(** X1: wherever [logger.py] lies, the log file is the file
    [Logs.log.jsonl] of the directory [setup_logging] makes, its text
    is the text of that directory followed by [/Logs.log.jsonl], and
    that directory and the directory of the configuration file lie
    beside [logger.py]. *)
Theorem log_file_in_log_dir __file__ :
  let here := Path.parent (Path.of_string __file__) in
  Path.parent (log_file __file__) = log_dir __file__
  /\ Path.name (log_file __file__) = "Logs.log.jsonl"
  /\ Path.str (log_file __file__)
     = Path.str (log_dir __file__) +:+ "/Logs.log.jsonl"
  /\ Path.parent (log_dir __file__) = here
  /\ Path.name (log_dir __file__) = "logs"
  /\ Path.parent (Path.parent (config_file __file__)) = here
  /\ Path.name (Path.parent (config_file __file__)) = "logging_configs"
  /\ Path.name (config_file __file__) = "logging_config.json".
Proof.
  unfold log_file, log_dir, config_file.
  rewrite truediv_Logs, truediv_logs, truediv_config. simpl.
  rewrite !parent_snoc, !name_snoc, !str_snoc by done.
  rewrite concat_snoc, append_assoc.
  by destruct (Path.parent (Path.of_string __file__)).
Qed.

(** X2: on a configuration whose [handlers] hold a handler
    [file_json], both dictionaries, lines 175-176 assign the path of
    the log file to the handler's [filename], whatever it held
    before; every other item of the configuration, of its handlers
    and of the handler is as it was, and the keys stand where they
    stood, [filename] at the end when the handler had none. *)
Theorem file_handler_filename c h f p :
  lookup "handlers" c = Some (VDict h) ->
  lookup "file_json" h = Some (VDict f) ->
  exists c' h' f',
    set_filename (VDict c) p = Ok (VDict c') /\
    lookup "handlers" c' = Some (VDict h') /\
    lookup "file_json" h' = Some (VDict f') /\
    lookup "filename" f' = Some (VStr p) /\
    (forall k, k ≠ "handlers" -> lookup k c' = lookup k c) /\
    (forall k, k ≠ "file_json" -> lookup k h' = lookup k h) /\
    (forall k, k ≠ "filename" -> lookup k f' = lookup k f) /\
    c'.*1 = c.*1 /\ h'.*1 = h.*1 /\
    f'.*1 = match lookup "filename" f with
            | Some _ => f.*1
            | None => f.*1 ++ [VStr "filename"]
            end.
Proof.
  intros Hh Hf.
  exists (store "handlers"
            (VDict (store "file_json" (VDict (store "filename" (VStr p) f)) h)) c),
         (store "file_json" (VDict (store "filename" (VStr p) f)) h),
         (store "filename" (VStr p) f).
  split_and!.
  - apply set_filename_Ok. right. by exists c, h, f.
  - apply lookup_store.
  - apply lookup_store.
  - apply lookup_store.
  - intros k Hk. by apply lookup_store_ne.
  - intros k Hk. by apply lookup_store_ne.
  - intros k Hk. by apply lookup_store_ne.
  - by rewrite keys_store, Hh.
  - by rewrite keys_store, Hf.
  - apply keys_store.
Qed.

(** X3: lines 175-176 change nothing but that file name: the
    configuration they leave is the one they found, or the one they
    found with the file name of the handler [file_json] assigned. *)
Theorem only_filename_changes config p config' :
  set_filename config p = Ok config' ->
  config' = config
  \/ exists c h f,
       config = VDict c /\ lookup "handlers" c = Some (VDict h) /\
       lookup "file_json" h = Some (VDict f) /\
       config'
       = VDict (store "handlers"
                  (VDict (store "file_json"
                            (VDict (store "filename" (VStr p) f)) h)) c).
Proof.
  intros [[-> _]|Hrest]%set_filename_Ok; [by left | by right].
Qed.

(** X4: assigning the file name twice is assigning the second one:
    on a configuration that lines 175-176 have been through, they give
    what they give on the configuration as loaded, and with the same
    path they change nothing more. *)
Theorem last_filename_wins config p q config' :
  set_filename config p = Ok config' ->
  set_filename config' q = set_filename config q
  /\ set_filename config' p = Ok config'.
Proof.
  intros Hp. pose proof Hp as [[-> _]|(c & h & f & -> & Hh & Hf & ->)]%set_filename_Ok;
    [done|].
  assert (forall r,
    set_filename
      (VDict (store "handlers"
                (VDict (store "file_json"
                          (VDict (store "filename" (VStr p) f)) h)) c)) r
    = Ok (VDict (store "handlers"
                  (VDict (store "file_json"
                            (VDict (store "filename" (VStr r) f)) h)) c)))
    as Hagain.
  { intros r. apply set_filename_Ok. right. eexists _, _, _.
    split; [done|]. rewrite !lookup_store. split; [done|]. split; [done|].
    by rewrite !store_store. }
  rewrite !Hagain. split; [|done].
  symmetry. apply set_filename_Ok. right. by exists c, h, f.
Qed.

(** X5: [setup_logging] first makes the directory [logs]; it loads
    the configuration only when the directory is there, and from the
    file [logging_configs/logging_config.json]; it calls [dictConfig]
    once at most, as its last call, on what lines 175-176 leave of
    the configuration loaded, and answers what [dictConfig] answers;
    it returns without an exception only when it has called
    [dictConfig]; an exception of [mkdir] or of the loading is raised
    as it is, with no call after it. *)
Theorem setup_logging_calls __file__ :
  let run := setup_logging __file__ in
  let dir := log_dir __file__ in
  let file := config_file __file__ in
  head run.1 = Some (Mkdir dir)
  /\ (forall e, mkdir dir = Raise e -> run = ([Mkdir dir], Raise e))
  /\ (forall p, Load p ∈ run.1 -> p = file /\ mkdir dir = Ok ())
  /\ (forall e, mkdir dir = Ok () -> load file = Raise e ->
        run = ([Mkdir dir; Load file], Raise e))
  /\ (forall cfg, DictConfig cfg ∈ run.1 ->
        mkdir dir = Ok () /\
        (exists config,
           load file = Ok config /\
           set_filename config (Path.str (log_file __file__)) = Ok cfg) /\
        run = ([Mkdir dir; Load file; DictConfig cfg], dictConfig cfg))
  /\ (run.2 = Ok () -> exists cfg, DictConfig cfg ∈ run.1).
Proof.
  simpl. rewrite setup_logging_run.
  destruct (mkdir (log_dir __file__)) as [[]|e1] eqn:Hm.
  2:{ split_and!; try done.
      - by intros e [= ->].
      - by intros p [=]%list_elem_of_singleton.
      - by intros cfg [=]%list_elem_of_singleton. }
  destruct (load (config_file __file__)) as [config|e2] eqn:Hl.
  2:{ split_and!; try done.
      - intros p [[=]|[= ->]%list_elem_of_singleton]%elem_of_cons. done.
      - by intros e _ [= ->].
      - by intros cfg [[=]|[=]%list_elem_of_singleton]%elem_of_cons. }
  destruct (set_filename config _) as [cfg|e3] eqn:Hs.
  2:{ split_and!; try done.
      - intros p [[=]|[= ->]%list_elem_of_singleton]%elem_of_cons. done.
      - by intros cfg [[=]|[=]%list_elem_of_singleton]%elem_of_cons. }
  split_and!; try done.
  - intros p [[=]|[[= ->]|[=]%list_elem_of_singleton]%elem_of_cons]%elem_of_cons.
    done.
  - intros cfg' [[=]|[[=]|[= ->]%list_elem_of_singleton]%elem_of_cons]%elem_of_cons.
    split_and!; [done| |done]. by exists config.
  - intros _. exists cfg. do 2 right. left.
Qed.

(** X6: the configuration [dictConfig] is called on never keeps the
    file name of the configuration file: when its handler [file_json]
    is a dictionary, the handler's [filename] is the text of the log
    file, [Logs.log.jsonl] in the directory that [setup_logging] has
    made before. *)
Theorem installed_file_handler __file__ c h f :
  DictConfig (VDict c) ∈ (setup_logging __file__).1 ->
  lookup "handlers" c = Some (VDict h) ->
  lookup "file_json" h = Some (VDict f) ->
  lookup "filename" f = Some (VStr (Path.str (log_file __file__)))
  /\ head (setup_logging __file__).1
     = Some (Mkdir (Path.parent (log_file __file__))).
Proof.
  intros Hin Hh Hf.
  assert (Path.parent (log_file __file__) = log_dir __file__) as ->.
  { unfold log_file, log_dir. rewrite truediv_Logs, truediv_logs. simpl.
    by rewrite parent_snoc. }
  rewrite setup_logging_run in Hin |- *.
  destruct (mkdir (log_dir __file__)) as [[]|e1];
    [|by apply list_elem_of_singleton in Hin].
  destruct (load (config_file __file__)) as [config|e2];
    [|by apply elem_of_cons in Hin as [[=]|[=]%list_elem_of_singleton]].
  destruct (set_filename config _) as [cfg|e3] eqn:Hs;
    [|by apply elem_of_cons in Hin as [[=]|[=]%list_elem_of_singleton]].
  split; [|done].
  apply elem_of_cons in Hin
      as [[=]|[[=]|[= <-]%list_elem_of_singleton]%elem_of_cons].
  apply set_filename_Ok in Hs
      as [[<- [Hc|(hs & Hg & Hc)]]|(c0 & h0 & f0 & -> & Hh0 & Hf0 & [= ->])].
  - simpl in Hc. by rewrite Hh in Hc.
  - simpl in Hg. rewrite Hh in Hg. injection Hg as <-.
    simpl in Hc. by rewrite Hf in Hc.
  - rewrite lookup_store in Hh. injection Hh as <-.
    rewrite lookup_store in Hf. injection Hf as <-.
    apply lookup_store.
Qed.

(** X7: a configuration that is a dictionary without [handlers], or
    whose [handlers] are a dictionary without [file_json], goes to
    [dictConfig] as it was loaded, and [setup_logging] answers what
    [dictConfig] answers. *)
Theorem config_without_file_handler __file__ c :
  mkdir (log_dir __file__) = Ok () ->
  load (config_file __file__) = Ok (VDict c) ->
  lookup "handlers" c = None
  \/ (exists h, lookup "handlers" c = Some (VDict h)
                /\ lookup "file_json" h = None) ->
  setup_logging __file__
  = ([Mkdir (log_dir __file__); Load (config_file __file__);
      DictConfig (VDict c)], dictConfig (VDict c)).
Proof.
  intros Hm Hl Hc. rewrite setup_logging_run, Hm, Hl.
  assert (set_filename (VDict c) (Path.str (log_file __file__))
          = Ok (VDict c)) as ->; [|done].
  apply set_filename_Ok. left. split; [done|].
  destruct Hc as [Hc|(h & Hh & Hf)].
  - left. simpl. by rewrite Hc.
  - right. exists (VDict h). simpl. by rewrite Hh, Hf.
Qed.

(** X8: when the [handlers] of the configuration hold under
    [file_json] something that is no mapping (a string, a number, a
    list, [None]), [setup_logging] raises a [TypeError] at the
    assignment of line 176 and does not call [dictConfig]. *)
Theorem malformed_file_handler __file__ c h v :
  mkdir (log_dir __file__) = Ok () ->
  load (config_file __file__) = Ok (VDict c) ->
  lookup "handlers" c = Some (VDict h) ->
  lookup "file_json" h = Some v ->
  no_mapping v ->
  setup_logging __file__
  = ([Mkdir (log_dir __file__); Load (config_file __file__)], Raise TypeError).
Proof.
  intros Hm Hl Hh Hf Hv. rewrite setup_logging_run, Hm, Hl.
  unfold set_filename. simpl. rewrite Hh. simpl. rewrite Hf. simpl.
  by destruct v.
Qed.
End SetupProperties.

Section SetupOnExamples.
Import Item Setup SetupExamples.

Lemma file_handler_filename_witness :
  lookup "handlers" (config_items "my_app.log.jsonl")
  = Some (VDict (handlers_items "my_app.log.jsonl"))
  /\ lookup "file_json" (handlers_items "my_app.log.jsonl")
     = Some (VDict (file_json_items "my_app.log.jsonl"))
  /\ exists c' h' f',
       set_filename (file_config "my_app.log.jsonl")
                    "/app/src/logs/Logs.log.jsonl" = Ok (VDict c') /\
       lookup "handlers" c' = Some (VDict h') /\
       lookup "file_json" h' = Some (VDict f') /\
       lookup "filename" f' = Some (VStr "/app/src/logs/Logs.log.jsonl") /\
       (forall k, k ≠ "handlers" ->
          lookup k c' = lookup k (config_items "my_app.log.jsonl")) /\
       (forall k, k ≠ "file_json" ->
          lookup k h' = lookup k (handlers_items "my_app.log.jsonl")) /\
       (forall k, k ≠ "filename" ->
          lookup k f' = lookup k (file_json_items "my_app.log.jsonl")) /\
       c'.*1 = (config_items "my_app.log.jsonl").*1 /\
       h'.*1 = (handlers_items "my_app.log.jsonl").*1 /\
       f'.*1 = match lookup "filename" (file_json_items "my_app.log.jsonl") with
               | Some _ => (file_json_items "my_app.log.jsonl").*1
               | None => (file_json_items "my_app.log.jsonl").*1
                         ++ [VStr "filename"]
               end.
Proof.
  split; [run|]. split; [run|].
  apply (file_handler_filename (config_items "my_app.log.jsonl")
           (handlers_items "my_app.log.jsonl")
           (file_json_items "my_app.log.jsonl")); run.
Defined.

Lemma only_filename_changes_witness :
  set_filename (file_config "my_app.log.jsonl") "/app/src/logs/Logs.log.jsonl"
  = Ok (file_config "/app/src/logs/Logs.log.jsonl")
  /\ (file_config "/app/src/logs/Logs.log.jsonl" = file_config "my_app.log.jsonl"
      \/ exists c h f,
           file_config "my_app.log.jsonl" = VDict c /\
           lookup "handlers" c = Some (VDict h) /\
           lookup "file_json" h = Some (VDict f) /\
           file_config "/app/src/logs/Logs.log.jsonl"
           = VDict (store "handlers"
                      (VDict (store "file_json"
                                (VDict (store "filename"
                                          (VStr "/app/src/logs/Logs.log.jsonl") f))
                                h)) c)).
Proof.
  split; [run|].
  apply (only_filename_changes (file_config "my_app.log.jsonl")
           "/app/src/logs/Logs.log.jsonl"). run.
Defined.

Lemma last_filename_wins_witness :
  set_filename (file_config "my_app.log.jsonl") "/app/src/logs/Logs.log.jsonl"
  = Ok (file_config "/app/src/logs/Logs.log.jsonl")
  /\ set_filename (file_config "/app/src/logs/Logs.log.jsonl")
                  "/srv/logs/Logs.log.jsonl"
     = set_filename (file_config "my_app.log.jsonl") "/srv/logs/Logs.log.jsonl"
  /\ set_filename (file_config "/app/src/logs/Logs.log.jsonl")
                  "/app/src/logs/Logs.log.jsonl"
     = Ok (file_config "/app/src/logs/Logs.log.jsonl").
Proof.
  split; [run|].
  apply (last_filename_wins (file_config "my_app.log.jsonl")
           "/app/src/logs/Logs.log.jsonl" "/srv/logs/Logs.log.jsonl"). run.
Defined.

Lemma installed_file_handler_witness :
  DictConfig (VDict (config_items "/app/src/logs/Logs.log.jsonl"))
    ∈ (@setup_logging (system (file_config "my_app.log.jsonl")) script).1
  /\ lookup "handlers" (config_items "/app/src/logs/Logs.log.jsonl")
     = Some (VDict (handlers_items "/app/src/logs/Logs.log.jsonl"))
  /\ lookup "file_json" (handlers_items "/app/src/logs/Logs.log.jsonl")
     = Some (VDict (file_json_items "/app/src/logs/Logs.log.jsonl"))
  /\ lookup "filename" (file_json_items "/app/src/logs/Logs.log.jsonl")
     = Some (VStr (Path.str (log_file script)))
  /\ head (@setup_logging (system (file_config "my_app.log.jsonl")) script).1
     = Some (Mkdir (Path.parent (log_file script))).
Proof.
  assert (DictConfig (VDict (config_items "/app/src/logs/Logs.log.jsonl"))
            ∈ (@setup_logging (system (file_config "my_app.log.jsonl")) script).1)
    as Hin by (vm_compute; do 2 right; left).
  split; [done|]. split; [run|]. split; [run|].
  apply (@installed_file_handler (system (file_config "my_app.log.jsonl"))
           script (config_items "/app/src/logs/Logs.log.jsonl")
           (handlers_items "/app/src/logs/Logs.log.jsonl")
           (file_json_items "/app/src/logs/Logs.log.jsonl")); [done|run|run].
Defined.

Lemma config_without_file_handler_witness :
  @mkdir (system (VDict console_items)) (log_dir script) = Ok ()
  /\ @load (system (VDict console_items)) (config_file script)
     = Ok (VDict console_items)
  /\ @setup_logging (system (VDict console_items)) script
     = ([Mkdir (log_dir script); Load (config_file script);
         DictConfig (VDict console_items)],
        @dictConfig (system (VDict console_items)) (VDict console_items)).
Proof.
  split; [run|]. split; [run|].
  apply (@config_without_file_handler (system (VDict console_items)) script
           console_items); [run|run|].
  right. eexists. split; run.
Defined.

Lemma malformed_file_handler_witness :
  lookup "handlers" text_items = Some (VDict text_handlers)
  /\ lookup "file_json" text_handlers = Some (VStr "my_app.log.jsonl")
  /\ no_mapping (VStr "my_app.log.jsonl")
  /\ @setup_logging (system (VDict text_items)) script
     = ([Mkdir (log_dir script); Load (config_file script)], Raise TypeError).
Proof.
  split; [run|]. split; [run|]. split; [exact I|].
  apply (@malformed_file_handler (system (VDict text_items)) script
           text_items text_handlers (VStr "my_app.log.jsonl"));
    [run|run|run|run|exact I].
Defined.
End SetupOnExamples.

(** * More on the formatter *)

Section MoreFormatterFacts.
Context `{PyLib}.
Import Json JsonFacts DictFacts.

(** The comprehension over two lists of entries, one after the other. *)
Lemma comprehension_app record l1 l2 fields message :
  comprehension record (l1 ++ l2) fields message
  = comprehension record l1 fields message
    ≫= fun built => comprehension record l2 built.2 built.1.
Proof.
  revert fields message.
  induction l1 as [|[key val] l1 IH]; intros fields message; simpl; [done|].
  destruct (Dict.pop val fields) as [popped fields'].
  destruct (if is_None (default VNone popped) then getattr record val
            else Ok (default VNone popped)) as [v|e]; simpl; [apply IH|done].
Qed.

(** The comprehension raises nothing but the [AttributeError] of
    [getattr]. *)
Lemma comprehension_Raise record items fields message e :
  comprehension record items fields message = Raise e ->
  exists a, e = AttributeError a /\ a ∈ items.*2 /\ hasattr record a = false.
Proof.
  revert fields message.
  induction items as [|[key val] items IH]; intros fields message; simpl;
    [done|].
  destruct (Dict.pop val fields) as [popped fields'].
  destruct (if is_None (default VNone popped) then getattr record val
            else Ok (default VNone popped)) as [v|e'] eqn:Hv; simpl.
  - intros (a & -> & ? & ?)%IH. exists a. split_and!; [done|by right|done].
  - intros [= ->]. destruct (is_None _); [|done].
    apply getattr_Raise in Hv as [-> ?]. exists val.
    split_and!; [done|left|done].
Qed.

(** An entry that reads an attribute of the record puts it under its
    output key. *)
Lemma comprehension_get_attr record items fields message built left k a :
  comprehension record items fields message = Ok (built, left) ->
  NoDup items.*1 -> (k, a) ∈ items -> a ∉ Dict.keys fields ->
  exists v, getattr record a = Ok v /\ Dict.get k built = Some v.
Proof.
  revert fields message.
  induction items as [|[key val] items IH]; intros fields message; simpl.
  - intros _ _ ?%elem_of_nil; done.
  - pose proof (pop_fst val fields) as Hfst.
    pose proof (pop_snd_subseteq val fields) as Hsub.
    destruct (Dict.pop val fields) as [popped fields'] eqn:Hpop.
    simpl in Hfst, Hsub. subst popped.
    intros (v' & Hv' & Hrest)%bind_Ok [Hkey Hnd]%NoDup_cons Hin Ha.
    apply elem_of_cons in Hin as [[= -> ->]|Hin].
    + apply get_None in Ha. rewrite Ha in Hv'. simpl in Hv'.
      exists v'. split; [done|].
      rewrite (comprehension_get_other _ _ _ _ _ _ _ Hrest Hkey), get_set.
      by rewrite decide_True.
    + eapply IH; eauto.
      intros ([k' w] & -> & Hk')%list_elem_of_fmap.
      apply Ha, list_elem_of_fmap. exists (k', w). split; [done|]. auto.
Qed.

(** Reading agrees on two records that agree on the sources. *)
Lemma comprehension_ext r1 r2 items fields message :
  (forall a, a ∈ items.*2 -> getattr r1 a = getattr r2 a) ->
  comprehension r1 items fields message = comprehension r2 items fields message.
Proof.
  revert fields message.
  induction items as [|[key val] items IH]; intros fields message Hs; simpl;
    [done|].
  destruct (Dict.pop val fields) as [popped fields'].
  rewrite (Hs val) by left.
  destruct (if is_None (default VNone popped) then getattr r2 val
            else Ok (default VNone popped)) as [v|e]; simpl; [|done].
  apply IH. intros a Ha. apply Hs. by right.
Qed.

Lemma derived_names_subseteq exc_info stack_info a :
  a ∈ derived_names exc_info stack_info ->
  a ∈ ["message"; "timestamp"; "exc_info"; "stack_info"].
Proof.
  unfold derived_names.
  destruct (is_None exc_info), (is_None stack_info); simpl;
    rewrite !elem_of_cons, ?elem_of_nil; tauto.
Qed.






Lemma set_notin {V} k (v : V) d :
  k ∉ Dict.keys d -> Dict.set k v d = d ++ [(k, v)].
Proof.
  unfold Dict.keys. induction d as [|[k0 v0] d IH]; [done|].
  rewrite fmap_cons, not_elem_of_cons. intros [Hne Hk]. simpl.
  by rewrite decide_False, IH.
Qed.

(** Updating with items that bring no key twice, and none that is
    there, appends them. *)
Lemma update_NoDup {V} (d other : Dict.t V) :
  NoDup (Dict.keys (d ++ other)) -> Dict.update d other = d ++ other.
Proof.
  unfold Dict.update. revert d.
  induction other as [|[k v] other IH]; intros d Hnd; simpl.
  - by rewrite app_nil_r.
  - replace (d ++ (k, v) :: other) with ((d ++ [(k, v)]) ++ other) in *
      by (by rewrite <- app_assoc).
    rewrite set_notin; [by apply IH|].
    unfold Dict.keys in Hnd. rewrite !fmap_app in Hnd.
    apply NoDup_app in Hnd as (Hnd & _ & _).
    apply NoDup_app in Hnd as (_ & Hnd & _).
    intros Hin. apply (Hnd k Hin). left.
Qed.

Lemma get_map_snd {V W} (f : V -> W) k (d : Dict.t V) :
  Dict.get k (map (fun kv => (kv.1, f kv.2)) d) = f <$> Dict.get k d.
Proof.
  induction d as [|[k0 v0] d IH]; [done|]. simpl. by case_decide.
Qed.

(** A document without a key written twice is read as it is. *)
Lemma as_dict_unique j : unique_keys j -> as_dict j = j.
Proof.
  induction j as [|b|z|f|s|items IH|items IH] using json_ind; simpl; try done.
  - intros Hu. f_equal.
    induction IH as [|x items Hx _ IHitems]; [done|].
    destruct Hu as [Hux Hu]. simpl. f_equal; auto.
  - intros [Hnd Hu].
    assert (map (fun kv => (kv.1, as_dict kv.2)) items = items) as ->.
    { clear Hnd. induction IH as [|[k v] items Hx _ IHitems]; [done|].
      destruct Hu as [Hux Hu]. simpl in *. f_equal; [|auto].
      f_equal. auto. }
    f_equal. by apply (update_NoDup []).
Qed.

(** The derived fields are the same on two records that give the same
    message, creation time, exception info and stack info. *)
Lemma always_fields_ext r1 r2 :
  getMessage r1 = getMessage r2 ->
  (forall a, a ∈ ["created"; "exc_info"; "stack_info"] ->
     getattr r1 a = getattr r2 a) ->
  always_fields r1 = always_fields r2.
Proof.
  intros Hm Ha. unfold always_fields.
  rewrite Hm, (Ha "created"), (Ha "exc_info"), (Ha "stack_info"); set_solver.
Qed.
End MoreFormatterFacts.

Section FormatterProperties.
Context `{PyLib}.
Import Json JsonFacts DictFacts.


(** X10: an entry of the format spec that reads an attribute of the
    record, not a derived field, puts the attribute's value under its
    output key: the JSON object holds the document of that value
    there, unless the output key is the name of a derived field or of
    an extra field, which are assigned later. *)
Theorem attribute_under_output_key self record text k a :
  NoDup (fmt_keys self).*1 ->
  (k, a) ∈ fmt_keys self ->
  a ∉ ["message"; "timestamp"; "exc_info"; "stack_info"] ->
  k ∉ ["message"; "timestamp"; "exc_info"; "stack_info"] ->
  k ∉ Dict.keys (extra_fields record) ->
  format self record = Ok text ->
  exists v j items,
    getattr record a = Ok v /\ to_json v = Ok j /\
    loads text = Some (JObj items) /\ Dict.get k items = Some j.
Proof.
  intros Hnd Hin Ha Hk Hx (out & items & Hm & He & _ & Hl & _)%format_loads.
  apply prepare_Ok in Hm as (fields & built & Hf & Hc & ->).
  destruct (keys_always_fields _ _ Hf) as (ei & si & _ & _ & Hkeys).
  destruct (comprehension_get_attr _ _ _ _ _ _ _ _ Hc Hnd Hin) as (v & Hv & Hg).
  { rewrite Hkeys. by intros ?%derived_names_subseteq. }
  pose proof (encoded_get _ _ k He) as Hgk.
  rewrite get_update_notin in Hgk by done.
  rewrite get_update_notin in Hgk.
  - rewrite Hg in Hgk. destruct Hgk as (j & Hj & Hgj). by exists v, j, items.
  - unfold leftover, Dict.keys.
    intros ([k' w] & -> & [_ Hw]%list_elem_of_filter)%list_elem_of_fmap.
    apply Hk. apply (derived_names_subseteq ei si). rewrite <- Hkeys.
    apply list_elem_of_fmap. by exists (k', w).
Qed.

(** X11: the entry of the format spec that alone reads a derived
    field moves it: the JSON object holds the text of the field under
    the output key of the entry, and has no key of the field's own
    name left, unless an entry or an extra field assigns to that
    name. *)
Theorem derived_field_under_output_key self record text fields k a s :
  always_fields record = Ok fields ->
  Dict.get a fields = Some (VStr s) ->
  NoDup (fmt_keys self).*1 ->
  (k, a) ∈ fmt_keys self ->
  (forall k', (k', a) ∈ fmt_keys self -> k' = k) ->
  (k ∈ Dict.keys fields -> k ∈ (fmt_keys self).*2) ->
  k ∉ Dict.keys (extra_fields record) ->
  format self record = Ok text ->
  exists items,
    loads text = Some (JObj items) /\
    Dict.get k items = Some (JStr s) /\
    (a ∉ (fmt_keys self).*1 -> a ∉ Dict.keys (extra_fields record) ->
     a ∉ items.*1).
Proof.
  intros Hf Hs Hnd Hin Huniq Hk Hx
         (out & items & Hm & He & _ & Hl & _)%format_loads.
  pose proof Hm as (fields' & Hf'' & Hkeys)%prepare_keys.
  apply prepare_Ok in Hm as (fields'' & built & Hf' & Hc & ->).
  assert (fields' = fields) as -> by congruence.
  assert (fields'' = fields) as -> by congruence.
  exists items. split; [done|]. split.
  - pose proof (encoded_get _ _ k He) as Hgk.
    rewrite get_update_notin in Hgk by done.
    rewrite get_update_notin in Hgk.
    + rewrite (comprehension_get _ _ _ _ _ _ _ _ _ Hc Hnd Hin Huniq Hs) in Hgk
        by done.
      by destruct Hgk as (j & [= <-] & ?).
    + rewrite keys_leftover. intros [Hsrc Hkf]%list_elem_of_filter. auto.
  - intros Ha Hax. rewrite (encoded_keys _ _ He), Hkeys, elem_of_merge.
    rewrite !elem_of_app, keys_leftover, list_elem_of_filter.
    intros [[]%elem_of_nil|[?|[[Hsrc _]|?]]]; try done.
    apply Hsrc, list_elem_of_fmap. by exists (k, a).
Qed.

(** X12: a derived field can be read once.  When an entry of the
    format spec reads a source that an earlier entry has read, it is
    read from the record as an attribute, and when the record has no
    attribute of that name [format] raises: if the derived fields
    could be computed, the [AttributeError] for a source of the format
    spec that the record lacks.  So [timestamp] cannot go under two
    output keys unless the record has an attribute of that name, which
    it has only when an extra field [timestamp] was given. *)
Theorem derived_field_read_twice self record earlier k a later :
  fmt_keys self = earlier ++ (k, a) :: later ->
  a ∈ earlier.*2 ->
  hasattr record a = false ->
  raises (format self record)
  /\ (forall fields, always_fields record = Ok fields ->
        exists attr, format self record = Raise (AttributeError attr)
                     /\ attr ∈ (fmt_keys self).*2
                     /\ hasattr record attr = false).
Proof.
  intros Hfmt Ha Hh.
  assert (forall fields, always_fields record = Ok fields ->
            exists attr, format self record = Raise (AttributeError attr)
                         /\ attr ∈ (fmt_keys self).*2
                         /\ hasattr record attr = false) as Hmain.
  { intros fields Hf.
    assert (exists attr,
              comprehension record (fmt_keys self) fields []
              = Raise (AttributeError attr)
              /\ attr ∈ (fmt_keys self).*2 /\ hasattr record attr = false)
      as (attr & Hc & ? & ?).
    { rewrite Hfmt, comprehension_app, fmap_app.
      destruct (comprehension record earlier fields []) as [[built left]|e]
        eqn:Hc.
      - apply comprehension_Ok in Hc as [-> _].
        rewrite pops_filter by by eapply NoDup_always_fields.
        destruct (comprehension_raises record ((k, a) :: later)
                    (filter (fun kv => kv.1 ∉ earlier.*2) fields) built k a)
          as (attr & Hr & Hattr & ?); [left| |done|].
        + rewrite (keys_filter (fun k => k ∉ earlier.*2)).
          by intros [? _]%list_elem_of_filter.
        + exists attr. split_and!; [exact Hr| |done].
          apply elem_of_app. by right.
      - apply comprehension_Raise in Hc as (attr & -> & Hattr & ?).
        exists attr. split_and!; [done| |done].
        apply elem_of_app. by left. }
    exists attr. split; [|done].
    unfold format, _prepare_log_dict. rewrite Hf. simpl. by rewrite Hc. }
  split; [|done].
  destruct (always_fields record) as [fields|e] eqn:Hf.
  - destruct (Hmain fields eq_refl) as (attr & -> & _). by eexists.
  - unfold format, _prepare_log_dict. rewrite Hf. by eexists.
Qed.

(** X13: for a record as [LogRecord] has it, its attributes named by
    strings, and any format spec, a line that [format] returns is made
    of printable ASCII characters only, so it has no newline and no
    character outside ASCII, and it reads back as a JSON object whose
    items, kept as they are written, hold no key twice. *)
Theorem every_line_is_ascii_with_unique_keys self record text :
  format self record = Ok text ->
  Forall printable (chars text)
  /\ ("010"%char ∉ chars text)
  /\ exists items, loads text = Some (JObj items) /\ NoDup items.*1.
Proof.
  intros (out & items & Hm & He & _ & Hl & Hp)%format_loads.
  split_and!; [done|by apply newline_not_printable|].
  exists items. split; [done|].
  rewrite (encoded_keys _ _ He). by eapply NoDup_prepare.
Qed.


(** X15: the line depends on what the formatter reads and on nothing
    else: two records with the same rendered message, the same
    creation time, exception info and stack info, the same values for
    the sources of the format spec and the same extra fields get the
    same line, or the same exception, whatever their other attributes
    hold. *)
Theorem line_depends_on_what_is_read self r1 r2 :
  getMessage r1 = getMessage r2 ->
  (forall a, a ∈ ["created"; "exc_info"; "stack_info"] ++ (fmt_keys self).*2 ->
     getattr r1 a = getattr r2 a) ->
  extra_fields r1 = extra_fields r2 ->
  format self r1 = format self r2.
Proof.
  intros Hm Ha Hx. unfold format, _prepare_log_dict.
  rewrite (always_fields_ext r1 r2 Hm)
    by (intros a Hin; apply Ha, elem_of_app; by left).
  destruct (always_fields r2) as [fields|e]; simpl; [|done].
  rewrite (comprehension_ext r1 r2)
    by (intros a Hin; apply Ha, elem_of_app; by right).
  destruct (comprehension r2 (fmt_keys self) fields []) as [built|e]; simpl;
    [|done].
  rewrite !add_extras_update. unfold extra_fields in Hx. by rewrite Hx.
Qed.

(** X16: the field [exc_info] follows the exception info of the
    record.  When [record.exc_info] is [None] the mapping has no key
    [exc_info], unless the format spec has this output key; when it is
    not [None], and the format spec holds an output key once and
    leaves the name [exc_info] as it is, the mapping holds under
    [exc_info] the text [formatException] gives for it. *)
Theorem exc_info_field self record out exc_info :
  _prepare_log_dict self record = Ok out ->
  getattr record "exc_info" = Ok exc_info ->
  (is_None exc_info = true -> "exc_info" ∉ (fmt_keys self).*1 ->
   "exc_info" ∉ Dict.keys out)
  /\ (is_None exc_info = false -> NoDup (fmt_keys self).*1 ->
      (forall k, (k, "exc_info") ∈ fmt_keys self -> k = "exc_info") ->
      exists text, formatException exc_info = Ok text
                   /\ Dict.get "exc_info" out = Some (VStr text)).
Proof.
  intros Hm Hei.
  pose proof Hm as (fields & Hf & Hkeys)%prepare_keys.
  pose proof Hm as (fields' & built & Hf' & Hc & Hout)%prepare_Ok.
  assert (fields' = fields) as -> by congruence.
  pose proof Hf as (message & created & timestamp & ei & stack_info
                    & exc & stack & _ & _ & _ & Hei' & Hexc & _ & _ & Hd)
    %always_fields_Ok.
  assert (ei = exc_info) as -> by congruence.
  assert ("exc_info" ∈ LOG_RECORD_BUILTIN_ATTRS) as Hb by decided.
  unfold formatted in Hexc. split.
  - intros Hnone Hk. rewrite Hnone in Hexc. subst exc.
    rewrite Hkeys, elem_of_merge, !elem_of_app, keys_leftover.
    rewrite list_elem_of_filter.
    intros [[]%elem_of_nil|[?|[[_ Hin]|Hin]]]; [done| |].
    + subst fields. revert Hin. destruct stack; by apply (bool_decide_unpack _).
    + unfold extra_fields, Dict.keys in Hin.
      apply list_elem_of_fmap in Hin
          as ([k' w] & Heq & [Hk' _]%list_elem_of_filter).
      simpl in *. subst k'. by apply Hk'.
  - intros Hnone Hnd Hname. rewrite Hnone in Hexc.
    destruct Hexc as (text & Hfe & ->). exists text. split; [done|].
    subst out. eapply derived_field_kept; eauto.
    subst fields. by destruct stack.
Qed.
(** X17: the line read back by [json.loads] is the mapping
    [_prepare_log_dict] built: the dictionary read has the keys of the
    mapping, in their order, and under each key the document of the
    mapping's value, with every object inside it made a dictionary,
    where a key written twice keeps its last value.  So when no
    dictionary inside the value has two keys that are written with
    the same text, the document comes back as it is, and no field is
    lost or added on the way through [json.dumps]; a string of the
    mapping, of code points below 256 as all strings here, comes back
    as the same string. *)
Theorem line_reads_back_as_mapping self record text :
  format self record = Ok text ->
  exists out read,
    _prepare_log_dict self record = Ok out /\
    loads_dict text = Some (JObj read) /\
    read.*1 = Dict.keys out /\
    (forall k v, Dict.get k out = Some v ->
       exists j, to_json v = Ok j /\
                 Dict.get k read = Some (as_dict j) /\
                 (unique_keys j -> Dict.get k read = Some j)) /\
    (forall k s, Dict.get k out = Some (VStr s) ->
       Dict.get k read = Some (JStr s)).
Proof.
  intros (out & items & Hm & He & _ & Hl & _)%format_loads.
  pose proof (encoded_keys _ _ He) as Hkeys.
  assert ((map (fun kv => (kv.1, as_dict kv.2)) items).*1 = items.*1) as Hread.
  { clear. induction items as [|[k j] items IH]; [done|].
    cbn [map]. rewrite !fmap_cons. by f_equal. }
  exists out, (map (fun kv => (kv.1, as_dict kv.2)) items).
  split_and!; [done| |congruence| |].
  - assert (as_dict (JObj items)
            = JObj (map (fun kv => (kv.1, as_dict kv.2)) items)) as Has.
    { cbn [as_dict]. f_equal. apply (update_NoDup []). rewrite app_nil_l.
      unfold Dict.keys. rewrite Hread, Hkeys. by eapply NoDup_prepare. }
    unfold loads_dict. rewrite Hl. unfold fmap, option_fmap, option_map.
    by rewrite Has.
  - intros k v Hg. pose proof (encoded_get _ _ k He) as Hk.
    rewrite Hg in Hk. destruct Hk as (j & Hj & Hgj).
    exists j. rewrite get_map_snd, Hgj. simpl. split_and!; [done..|].
    intros Hu. by rewrite as_dict_unique.
  - intros k s Hg. pose proof (encoded_get _ _ k He) as Hk.
    rewrite Hg in Hk. destruct Hk as (j & [= <-] & Hgj).
    by rewrite get_map_snd, Hgj.
Qed.
End FormatterProperties.

Section FormatterOnExamples.
Import Json CPython Examples FormatterExamples.


Lemma attribute_under_output_key_witness :
  NoDup (fmt_keys default_spec).*1
  /\ ("level", "levelname") ∈ fmt_keys default_spec
  /\ ("levelname" ∉ ["message"; "timestamp"; "exc_info"; "stack_info"])
  /\ ("level" ∉ ["message"; "timestamp"; "exc_info"; "stack_info"])
  /\ ("level" ∉ Dict.keys (extra_fields info_record))
  /\ @format info_lib default_spec info_record = Ok info_line
  /\ exists v j items,
       @getattr info_lib info_record "levelname" = Ok v /\
       to_json v = Ok j /\
       loads info_line = Some (JObj items) /\
       Dict.get "level" items = Some j.
Proof.
  assert (("level", "levelname") ∈ fmt_keys default_spec) as Hin by left.
  split; [decided|]. split; [done|]. split; [decided|]. split; [decided|].
  split; [decided|]. split; [run|].
  apply (@attribute_under_output_key info_lib default_spec info_record
           info_line "level" "levelname"); [decided|done|decided..|run].
Defined.

Lemma derived_field_under_output_key_witness :
  @always_fields info_lib info_record = Ok (derived "info" timestamp None None)
  /\ Dict.get "message" (derived "info" timestamp None None)
     = Some (VStr "info")
  /\ NoDup (fmt_keys renaming_spec).*1
  /\ ("msg", "message") ∈ fmt_keys renaming_spec
  /\ ("msg" ∉ Dict.keys (extra_fields info_record))
  /\ @format info_lib renaming_spec info_record = Ok renamed_line
  /\ exists items,
       loads renamed_line = Some (JObj items) /\
       Dict.get "msg" items = Some (JStr "info") /\
       ("message" ∉ (fmt_keys renaming_spec).*1 ->
        "message" ∉ Dict.keys (extra_fields info_record) ->
        "message" ∉ items.*1).
Proof.
  assert (("msg", "message") ∈ fmt_keys renaming_spec) as Hin by left.
  split; [run|]. split; [run|]. split; [decided|]. split; [done|].
  split; [decided|]. split; [run|].
  apply (@derived_field_under_output_key info_lib renaming_spec info_record
           renamed_line (derived "info" timestamp None None) "msg" "message"
           "info"); [run|run|decided|done| | |decided|run].
  - intros k' Hk'. apply list_elem_of_singleton in Hk'. congruence.
  - intros Hk. exfalso. revert Hk. decided.
Defined.

Lemma derived_field_read_twice_witness :
  fmt_keys twice_spec = [("time", "timestamp")] ++ ("timestamp", "timestamp") :: []
  /\ "timestamp" ∈ [("time", "timestamp")].*2
  /\ @hasattr info_lib info_record "timestamp" = false
  /\ raises (@format info_lib twice_spec info_record)
  /\ (forall fields, @always_fields info_lib info_record = Ok fields ->
        exists attr,
          @format info_lib twice_spec info_record = Raise (AttributeError attr)
          /\ attr ∈ (fmt_keys twice_spec).*2
          /\ @hasattr info_lib info_record attr = false).
Proof.
  assert ("timestamp" ∈ [("time", "timestamp")].*2) as Hin by left.
  split; [run|]. split; [done|]. split; [run|].
  apply (@derived_field_read_twice info_lib twice_spec info_record
           [("time", "timestamp")] "timestamp" "timestamp" []); [run|done|run].
Defined.

Lemma every_line_is_ascii_with_unique_keys_witness :
  @format info_lib default_spec level_record = Ok level_line
  /\ Forall printable (chars level_line)
  /\ ("010"%char ∉ chars level_line)
  /\ exists items, loads level_line = Some (JObj items) /\ NoDup items.*1.
Proof.
  split; [run|].
  apply (@every_line_is_ascii_with_unique_keys info_lib default_spec
           level_record level_line). run.
Defined.


Lemma line_depends_on_what_is_read_witness :
  @getattr info_lib info_record "lineno" = Ok (VInt 9)
  /\ @getattr info_lib moved_record "lineno" = Ok (VInt 41)
  /\ @getMessage info_lib info_record = @getMessage info_lib moved_record
  /\ (forall a,
        a ∈ ["created"; "exc_info"; "stack_info"] ++ (fmt_keys default_spec).*2 ->
        @getattr info_lib info_record a = @getattr info_lib moved_record a)
  /\ extra_fields info_record = extra_fields moved_record
  /\ @format info_lib default_spec info_record
     = @format info_lib default_spec moved_record.
Proof.
  assert (forall a,
            a ∈ ["created"; "exc_info"; "stack_info"]
                ++ (fmt_keys default_spec).*2 ->
            @getattr info_lib info_record a = @getattr info_lib moved_record a)
    as Ha.
  { intros a Hin.
    change (a ∈ ["created"; "exc_info"; "stack_info";
                 "levelname"; "message"; "timestamp"]) in Hin.
    repeat (apply elem_of_cons in Hin as [->|Hin]; [run|]).
    apply elem_of_nil in Hin. destruct Hin. }
  split; [run|]. split; [run|]. split; [run|]. split; [exact Ha|]. split; [run|].
  apply (@line_depends_on_what_is_read info_lib default_spec info_record
           moved_record); [run|done|run].
Defined.

Lemma exc_info_field_witness :
  @_prepare_log_dict exception_lib default_spec exception_record
  = Ok [("level", VStr "ERROR"); ("message", VStr "exception");
        ("timestamp", VStr timestamp); ("exc_info", VStr "NoneType: None")]
  /\ @getattr exception_lib exception_record "exc_info" = Ok no_exception
  /\ (is_None no_exception = true ->
      "exc_info" ∉ (fmt_keys default_spec).*1 ->
      "exc_info"
        ∉ Dict.keys [("level", VStr "ERROR"); ("message", VStr "exception");
                     ("timestamp", VStr timestamp);
                     ("exc_info", VStr "NoneType: None")])
  /\ (is_None no_exception = false -> NoDup (fmt_keys default_spec).*1 ->
      (forall k, (k, "exc_info") ∈ fmt_keys default_spec -> k = "exc_info") ->
      exists text,
        @formatException exception_lib no_exception = Ok text
        /\ Dict.get "exc_info"
             [("level", VStr "ERROR"); ("message", VStr "exception");
              ("timestamp", VStr timestamp);
              ("exc_info", VStr "NoneType: None")]
           = Some (VStr text)).
Proof.
  split; [run|]. split; [run|].
  apply (@exc_info_field exception_lib default_spec exception_record); run.
Defined.
Lemma line_reads_back_as_mapping_witness :
  @format info_lib default_spec level_record = Ok level_line
  /\ exists out read,
       @_prepare_log_dict info_lib default_spec level_record = Ok out /\
       loads_dict level_line = Some (JObj read) /\
       read.*1 = Dict.keys out /\
       (forall k v, Dict.get k out = Some v ->
          exists j, to_json v = Ok j /\
                    Dict.get k read = Some (as_dict j) /\
                    (unique_keys j -> Dict.get k read = Some j)) /\
       (forall k s, Dict.get k out = Some (VStr s) ->
          Dict.get k read = Some (JStr s)).
Proof.
  split; [run|].
  apply (@line_reads_back_as_mapping info_lib default_spec level_record
           level_line). run.
Defined.
End FormatterOnExamples.
